(** * Fact-gathering modules: subset resolution, aggregation, sysdescr decoding

    A shallow embedding of three Ansible library modules:

    - [iosxr_facts.py] and [junos_facts.py]: [main] turns the
      [gather_subset] tokens into the set of fact subsets to run, runs
      one extractor per selected subset and returns the merged,
      namespaced fact dictionary;
    - [parse_snmp_sysdescr.py]: [decode_os] splits an SNMP sysDescr
      string into vendor, model, type, version and build time.

    Python sets of strings are [gset string], dictionaries are [gmap],
    [module.fail_json] and uncaught exceptions are explicit outcomes.
    Strings are byte strings ([str] of the Python 2 interpreter the
    modules name in their first line). *)

From Stdlib Require Import Ascii String.
From stdpp Require Import gmap strings list fin_maps.

Open Scope string_scope.
Open Scope list_scope.

(** Closed decidable statements are settled by evaluation. *)
Ltac by_compute := apply (bool_decide_unpack _); vm_compute; exact I.

(** ** Python string primitives *)

Module Py.

(** [s.startswith('!')] followed by [s[1:]]: the rest of the string when
    the first character is the negation marker. *)
Definition strip_bang (s : string) : option string :=
  match s with
  | String "!"%char rest => Some rest
  | _ => None
  end.

(** [needle in hay], also [re.search] of a pattern without
    metacharacters: [needle] starts at some position of [hay]. *)
Fixpoint contains (needle hay : string) : bool :=
  String.prefix needle hay ||
  match hay with
  | EmptyString => false
  | String _ rest => contains needle rest
  end.

(** [sep.join(l)]. *)
Definition join (sep : string) (l : list string) : string :=
  String.concat sep l.

(** [c.lower()] on one byte: only [A-Z] change. *)
Definition lower_ascii (c : ascii) : ascii :=
  let n := Ascii.N_of_ascii c in
  if ((65 <=? n) && (n <=? 90))%N then Ascii.ascii_of_N (n + 32) else c.

(** [s.lower()]. *)
Fixpoint lower (s : string) : string :=
  match s with
  | EmptyString => EmptyString
  | String c rest => String (lower_ascii c) (lower rest)
  end.

(** The bytes [str.split()] treats as separators: tab, line feed,
    vertical tab, form feed, carriage return and space. *)
Definition isspace (c : ascii) : bool :=
  let n := Ascii.N_of_ascii c in
  (((9 <=? n) && (n <=? 13)) || (n =? 32))%N.

(** Cut [s] at every byte satisfying [p]; empty pieces are kept, so the
    result has one more element than [s] has separators. *)
Fixpoint split_by (p : ascii → bool) (s : string) : list string :=
  match s with
  | EmptyString => [EmptyString]
  | String c rest =>
      if p c then EmptyString :: split_by p rest
      else match split_by p rest with
           | [] => [String c EmptyString]
           | w :: ws => String c w :: ws
           end
  end.

(** [s.split(',')]. *)
Definition split_comma (s : string) : list string :=
  split_by (λ c, Ascii.eqb c ","%char) s.

(** [s.split()]: runs of whitespace separate, no empty word is returned. *)
Definition split (s : string) : list string :=
  filter (λ w, w ≠ EmptyString) (split_by isspace s).

End Py.

(** ** The gather-subset resolver

    The first half of [main] is the same in both modules except for the
    text handed to [module.fail_json]; [bad_subset] is that text, as a
    function of the valid names and of the offending name. *)

Module Subsets.

Section resolver.
Variable bad_subset : gset string → string → string.
Variable VALID_SUBSETS : gset string.

(** The [for subset in gather_subset] loop. [inl msg] is
    [module.fail_json(msg=msg)], which ends the module run; [inr]
    carries [runable_subsets] and [exclude_subsets] after the loop. *)
Fixpoint gather_loop (gather_subset : list string)
    (runable_subsets exclude_subsets : gset string)
    : string + (gset string * gset string) :=
  match gather_subset with
  | [] => inr (runable_subsets, exclude_subsets)
  | subset :: rest =>
      if decide (subset = "all") then
        gather_loop rest (runable_subsets ∪ VALID_SUBSETS) exclude_subsets
      else
        match Py.strip_bang subset with
        | Some name =>
            if decide (name = "all") then
              gather_loop rest runable_subsets (exclude_subsets ∪ VALID_SUBSETS)
            else if decide (name ∈ VALID_SUBSETS) then
              gather_loop rest runable_subsets (exclude_subsets ∪ {[name]})
            else inl (bad_subset VALID_SUBSETS name)
        | None =>
            if decide (subset ∈ VALID_SUBSETS) then
              gather_loop rest (runable_subsets ∪ {[subset]}) exclude_subsets
            else inl (bad_subset VALID_SUBSETS subset)
        end
  end.

(** The loop followed by the three set statements after it:
    [if not runable_subsets: runable_subsets.update(VALID_SUBSETS)],
    [runable_subsets.difference_update(exclude_subsets)] and
    [runable_subsets.add('default')]. *)
Definition resolve (gather_subset : list string) : string + gset string :=
  match gather_loop gather_subset ∅ ∅ with
  | inl msg => inl msg
  | inr (runable_subsets, exclude_subsets) =>
      let runable_subsets :=
        if decide (runable_subsets = ∅) then runable_subsets ∪ VALID_SUBSETS
        else runable_subsets in
      inr ((runable_subsets ∖ exclude_subsets) ∪ {["default"]})
  end.

(** *** The resolver as the specification words it *)

(** The positively requested names, with [all] standing for every valid
    name. *)
Fixpoint requested (tokens : list string) : gset string :=
  match tokens with
  | [] => ∅
  | t :: rest =>
      match Py.strip_bang t with
      | Some _ => requested rest
      | None => (if decide (t = "all") then VALID_SUBSETS else {[t]}) ∪ requested rest
      end
  end.

(** The negated names, with [!all] standing for every valid name. *)
Fixpoint negated (tokens : list string) : gset string :=
  match tokens with
  | [] => ∅
  | t :: rest =>
      match Py.strip_bang t with
      | Some name => (if decide (name = "all") then VALID_SUBSETS else {[name]}) ∪ negated rest
      | None => negated rest
      end
  end.

(** [RunSet = ((I if I is non-empty else validNames) − E) ∪ {default}]. *)
Definition spec_runset (tokens : list string) : gset string :=
  let I := requested tokens in
  let E := negated tokens in
  ((if decide (I = ∅) then VALID_SUBSETS else I) ∖ E) ∪ {["default"]}.

(** A token the specification accepts: [all], [!all], a valid subset
    name, or [!] followed by a valid subset name. *)
Definition valid_token (t : string) : Prop :=
  t = "all" ∨ t = "!all" ∨ t ∈ VALID_SUBSETS ∨
  ∃ name, name ∈ VALID_SUBSETS ∧ t = String "!"%char name.

(** Subset names are identifiers: none begins with the negation marker. *)
Definition plain_names : Prop :=
  ∀ name, name ∈ VALID_SUBSETS → Py.strip_bang name = None.

(** The name a token stands for once the negation marker is taken off,
    and a token whose name is neither [all] nor in the catalog. *)
Definition stripped (t : string) : string :=
  from_option id t (Py.strip_bang t).
Definition unknown_token (t : string) : Prop :=
  stripped t ≠ "all" ∧ stripped t ∉ VALID_SUBSETS.

(** A token list includes a name by naming it or by [all], and negates
    it by naming it after the marker or by [!all]. *)
Definition includes (name : string) (tokens : list string) : Prop :=
  name ∈ tokens ∨ "all" ∈ tokens.
Definition negates (name : string) (tokens : list string) : Prop :=
  String "!"%char name ∈ tokens ∨ "!all" ∈ tokens.

End resolver.

End Subsets.


(** ** What the two [main] functions share

    Values of the result dictionary, the ways a call into the device
    layer can end, and the ways a module run can end. *)

Module Facts.

(** A value of the result dictionary, as JSON sees it. *)
#[warnings="-register-all"]
Inductive value :=
| VNone
| VStr (s : string)
| VInt (n : Z)
| VList (l : list value)
| VDict (d : list (string * value)).

(** How a call that does not return ends. [module.fail_json] raises
    [SystemExit], which [except Exception] does not catch. *)
Inductive raised :=
| Exception (what : string)
| SystemExit (msg : string).

(** How a run of [main] ends. *)
Inductive outcome :=
| ExitFacts (ansible_facts : gmap string value) (warnings : list string)
| ExitOut (out : value)
| FailJson (msg : string)
| Uncaught (what : string).

(** A fact class of the catalog: the commands it asks for (none for the
    NETCONF classes, which send their requests from [populate]) and the
    keys its [populate] writes into [self.facts]. *)
Record extractor := Extractor {
  commands : list string;
  fact_keys : list string
}.

(** [dict(zip(commands, responses))]: [zip] stops at the shorter list and
    a later pair replaces an earlier one with the same key. *)
Definition dict_zip (commands responses : list string) : gmap string string :=
  list_to_map (reverse (zip commands responses)).

(** [self.facts] after [populate]: the keys the class writes, each with
    the value scraped for it; [None] is a key the run left unset. *)
Definition facts_of (keys : list string) (scraped : string → option value)
    : gmap string value :=
  list_to_map (omap (λ k, (λ v, (k, v)) <$> scraped k) keys).

(** The loop [ansible_facts['ansible_net_%s' % key] = value]. *)
Definition namespaced (facts : gmap string value) : gmap string value :=
  map_fold (λ key value ansible_facts,
              <["ansible_net_" +:+ key := value]> ansible_facts) ∅ facts.

(** What a returned fact dictionary owes to the resolution it comes
    from: every key carries the namespace tag, and [gather_subset] is
    there and lists the run set, each name once. *)
Definition well_reported (resolved : string + gset string)
    (ansible_facts : gmap string value) : Prop :=
  (∀ key, is_Some (ansible_facts !! key) →
          String.prefix "ansible_net_" key = true) ∧
  ∃ rs l, resolved = inr rs ∧
          ansible_facts !! "ansible_net_gather_subset" = Some (VList (VStr <$> l)) ∧
          NoDup l ∧ ∀ name, name ∈ l ↔ name ∈ rs.

(** [FACT_SUBSETS[key]] for every key, in the given order; [None] is the
    [KeyError] of a missing key. *)
Definition instantiate (FACT_SUBSETS : gmap string extractor)
    (keys : list string) : option (list (string * extractor)) :=
  mapM (λ key, (λ cls, (key, cls)) <$> FACT_SUBSETS !! key) keys.

End Facts.

(** ** iosxr_facts.py *)

Module Iosxr.
Import Facts.

Definition Default := Extractor ["show version brief"; "admin show dsc"]
  ["version"; "image"; "hostname"; "serial"].
Definition Hardware := Extractor
  ["dir /all"; "show memory summary"; "show environment temperatures";
   "show processes cpu"]
  ["filesystems"; "memtotal_mb"; "memfree_mb"; "temp"; "CPU %"].
Definition Multicast := Extractor
  ["show mfib connections"; "show mfib counter";
   "show mrib route outgoing-interface"]
  ["mfib_connections"; "mfib_counter"; "mrib_route_outgoing_if"].
Definition Bgp := Extractor ["show bgp summary"]
  ["bgp_info"; "bgp_process"; "bgp_table"].
Definition Isis := Extractor ["show isis adjacency"] ["ISIS_adjacency"].
Definition Config := Extractor ["show running-config"] ["config"].
Definition L2vpn := Extractor ["show l2vpn xconnect"] ["l2vpn"].
Definition Route_Summary := Extractor ["show route summary"] ["routing_summary"].
Definition Routes := Extractor ["show route"; "show route ipv6"]
  ["routing_table_IPv4"; "routing_table_IPv6"].
Definition Interfaces := Extractor
  ["show interfaces"; "show ipv6 interface"; "show lldp";
   "show lldp neighbors detail"]
  ["all_ipv4_addresses"; "all_ipv6_addresses"; "interfaces"; "neighbors"].

Definition FACT_SUBSETS : gmap string extractor :=
  list_to_map
    [("default", Default); ("hardware", Hardware); ("interfaces", Interfaces);
     ("config", Config); ("multicast", Multicast); ("bgp", Bgp);
     ("isis", Isis); ("routes", Routes); ("route_summary", Route_Summary);
     ("l2vpn", L2vpn)].

Definition VALID_SUBSETS : gset string := dom FACT_SUBSETS.

(** The [gather_subset] entry of the argument spec. *)
Definition default_gather_subset : list string := ["!config"; "!routes"].

(** [module.params['gather_subset']]: what the caller supplied, or the
    default of the argument spec. *)
Definition params_gather_subset (supplied : option (list string)) : list string :=
  from_option id default_gather_subset supplied.

(** [module.fail_json(msg='Bad subset')]. *)
Definition bad_subset (valid : gset string) (subset : string) : string :=
  "Bad subset".

Section main.
(** The order in which Python walks a set. *)
Variable order : gset string → list string.
(** [run_commands(module, commands)], of [ansible.module_utils.iosxr]. *)
Variable run_commands : list string → raised + list string.
(** The regular-expression scraping inside [populate] of the class
    behind a subset name. *)
Variable scrape : string → gmap string string → raised + (string → option value).
(** [module.from_json], of [ansible.module_utils.basic]. *)
Variable from_json : gmap string string → raised + value.
(** What [check_args] appended to [warnings]. *)
Variable warnings : list string.

Definition populate (name : string) (inst : extractor)
    (results : gmap string string) : raised + gmap string value :=
  match scrape name results with
  | inl e => inl e
  | inr scraped => inr (facts_of (fact_keys inst) scraped)
  end.

(** The body of the [try]: [facts] and the variable [results] ([None]
    while unbound) are threaded through, [log] collects the commands
    handed to the device. A failure carries [results] as the handler
    will see it. *)
Fixpoint run_instances (instances : list (string * extractor))
    (facts : gmap string value) (results : option (gmap string string))
    (log : list string)
    : list string * (raised * option (gmap string string) + gmap string value) :=
  match instances with
  | [] => (log, inr facts)
  | (name, inst) :: rest =>
      let commands := commands inst in
      match run_commands commands with
      | inl e => (log ++ commands, inl (e, results))
      | inr responses =>
          let results := dict_zip commands responses in
          match populate name inst results with
          | inl e => (log ++ commands, inl (e, Some results))
          | inr inst_facts =>
              run_instances rest (inst_facts ∪ facts) (Some results)
                (log ++ commands)
          end
      end
  end.

(** [except Exception: module.exit_json(out=module.from_json(results))]. *)
Definition handler (e : raised) (results : option (gmap string string)) : outcome :=
  match e with
  | SystemExit msg => FailJson msg
  | Exception _ =>
      match results with
      | None => Uncaught "UnboundLocalError"
      | Some results =>
          match from_json results with
          | inr out => ExitOut out
          | inl (Exception what) => Uncaught what
          | inl (SystemExit msg) => FailJson msg
          end
      end
  end.

(** [main], from [gather_subset = module.params['gather_subset']] on:
    the commands sent to the device, and how the run ends. *)
Definition main (gather_subset : list string) : list string * outcome :=
  match Subsets.resolve bad_subset VALID_SUBSETS gather_subset with
  | inl msg => ([], FailJson msg)
  | inr runable_subsets =>
      let facts : gmap string value :=
        {["gather_subset" := VList (VStr <$> order runable_subsets)]} in
      match instantiate FACT_SUBSETS (order runable_subsets) with
      | None => ([], Uncaught "KeyError")
      | Some instances =>
          match run_instances instances facts None [] with
          | (log, inr facts) => (log, ExitFacts (namespaced facts) warnings)
          | (log, inl (e, results)) => (log, handler e results)
          end
      end
  end.

End main.

End Iosxr.

(** ** junos_facts.py *)

Module Junos.
Import Facts.

Definition Default := Extractor [] ["hostname"; "version"; "model"; "serialnum"].
Definition Config := Extractor [] ["config"].
Definition Hardware := Extractor [] ["memfree_mb"; "memtotal_mb"; "filesystems"].
Definition Interfaces := Extractor [] ["interfaces"].
Definition InterfacesExt := Extractor [] ["interfaces_ext"].
Definition Optics := Extractor [] ["optics"].
Definition BgpSummary := Extractor [] ["bgp_summary"].
Definition BgpPeers := Extractor [] ["bgp_neighbors"].
Definition Temperatures := Extractor [] ["temperature"; "fans"].
Definition Snapshots := Extractor [] ["snapshots"].
Definition RouteSummary := Extractor [] ["route_summary"].
Definition Routes := Extractor [] ["routes"].
Definition ISISOverview := Extractor [] ["isis_overview"].
Definition RouteEngine := Extractor [] ["route-engine"].
Definition L2vpn := Extractor [] ["l2vpn"].

Definition FACT_SUBSETS : gmap string extractor :=
  list_to_map
    [("default", Default); ("hardware", Hardware); ("config", Config);
     ("interfaces", Interfaces); ("interfaces_ext", InterfacesExt);
     ("optics", Optics); ("temperatures", Temperatures);
     ("bgp_summary", BgpSummary); ("bgp_peers", BgpPeers);
     ("snapshots", Snapshots); ("route_summary", RouteSummary);
     ("routes", Routes); ("isis_overview", ISISOverview);
     ("route_engine", RouteEngine); ("l2vpn", L2vpn)].

Definition VALID_SUBSETS : gset string := dom FACT_SUBSETS.

(** The [gather_subset] entry of the argument spec. *)
Definition default_gather_subset : list string :=
  ["!config"; "!routes"; "!bgppeers"].

(** [module.params['gather_subset']]: what the caller supplied, or the
    default of the argument spec. *)
Definition params_gather_subset (supplied : option (list string)) : list string :=
  from_option id default_gather_subset supplied.

(** The default the module documents: ["!config,!bgp_peers,!routes"]. *)
Definition documented_gather_subset : list string :=
  ["!config"; "!bgp_peers"; "!routes"].

Section main.
(** The order in which Python walks a set. *)
Variable order : gset string → list string.
(** The NETCONF requests and the XML scraping inside [populate] of the
    class behind a subset name. *)
Variable scrape : string → raised + (string → option value).
(** What [check_args] appended to [warnings]. *)
Variable warnings : list string.

(** ['Subset must be one of [%s], got %s' % (', '.join(VALID_SUBSETS), subset)]. *)
Definition bad_subset (valid : gset string) (subset : string) : string :=
  "Subset must be one of [" +:+ Py.join ", " (order valid) +:+ "], got " +:+ subset.

Definition populate (name : string) (inst : extractor) : raised + gmap string value :=
  match scrape name with
  | inl e => inl e
  | inr scraped => inr (facts_of (fact_keys inst) scraped)
  end.

(** The loop [inst.populate(); facts.update(inst.facts)]; [log] collects
    the subsets whose [populate], and with it their device requests, ran. *)
Fixpoint run_instances (instances : list (string * extractor))
    (facts : gmap string value) (log : list string)
    : list string * (raised + gmap string value) :=
  match instances with
  | [] => (log, inr facts)
  | (name, inst) :: rest =>
      match populate name inst with
      | inl e => (log ++ [name], inl e)
      | inr inst_facts => run_instances rest (inst_facts ∪ facts) (log ++ [name])
      end
  end.

(** [main], from [gather_subset = module.params['gather_subset']] on:
    the subsets that talked to the device, and how the run ends. *)
Definition main (gather_subset : list string) : list string * outcome :=
  match Subsets.resolve bad_subset VALID_SUBSETS gather_subset with
  | inl msg => ([], FailJson msg)
  | inr runable_subsets =>
      let facts : gmap string value :=
        {["gather_subset" := VList (VStr <$> order runable_subsets)]} in
      match instantiate FACT_SUBSETS (order runable_subsets) with
      | None => ([], Uncaught "KeyError")
      | Some instances =>
          match run_instances instances facts [] with
          | (log, inr facts) => (log, ExitFacts (namespaced facts) warnings)
          | (log, inl (Exception what)) => (log, Uncaught what)
          | (log, inl (SystemExit msg)) => (log, FailJson msg)
          end
      end
  end.

End main.

End Junos.


(** ** parse_snmp_sysdescr.py *)

Module Sysdescr.

(** The two exceptions indexing can raise: a list index out of range and
    a key missing from a dictionary. *)
Inductive error := IndexError | KeyError.

#[global] Instance error_eq_dec : EqDecision error.
Proof. solve_decision. Defined.

#[global] Instance error_bind : MBind (sum error) := λ A B f x,
  match x with
  | inl e => inl e
  | inr a => f a
  end.

(** The loop [tokens[i] = string.split(); i += 1] over [desc]. *)
Fixpoint tokenize (desc : list string) (i : nat)
    (tokens : gmap nat (list string)) : gmap nat (list string) :=
  match desc with
  | [] => tokens
  | string :: rest => tokenize rest (S i) (<[i := Py.split string]> tokens)
  end.

(** [tokens[i][j]]: [tokens] is a dictionary, its values are lists. *)
Definition item (tokens : gmap nat (list string)) (i j : nat) : error + string :=
  match tokens !! i with
  | None => inl KeyError
  | Some words =>
      match words !! j with
      | None => inl IndexError
      | Some word => inr word
      end
  end.

(** [re.search('version', string, re.IGNORECASE)] as a truth value. *)
Definition search_version (string : string) : bool :=
  Py.contains "version" (Py.lower string).

(** The loop that looks for the version string: the first field that
    mentions it decides, and ends the loop. *)
Fixpoint find_version (desc : list string) (i : nat)
    (tokens : gmap nat (list string)) (os_version : string) : error + string :=
  match desc with
  | [] => inr os_version
  | string :: rest =>
      if search_version string then item tokens i 1
      else find_version rest (S i) tokens os_version
  end.

Definition decode_os (sysdescr : string) : error + gmap string string :=
  let desc := Py.split_comma sysdescr in
  let os_type := "Unknown" in
  let os_model := "Unknown" in
  let os_version := "Unknown" in
  let os_buildtime := "Unknown" in
  let tokens := tokenize desc 0 ∅ in
  os_vendor ← item tokens 0 0;
  t00 ← item tokens 0 0;
  '(os_type, os_model, os_version, os_buildtime) ←
    (if decide (Py.lower t00 = "cisco") then
       t02 ← item tokens 0 2;
       os_type ←
         (if decide (Py.lower t02 = "software") then
            t01 ← item tokens 0 1; inr (Py.lower t01)
          else
            t01 ← item tokens 0 1;
            t02 ← item tokens 0 2;
            inr (Py.lower t01 +:+ "_" +:+ Py.lower t02));
       os_version ← find_version desc 0 tokens os_version;
       inr (os_type, os_model, os_version, os_buildtime)
     else
       t00 ← item tokens 0 0;
       if decide (Py.lower t00 = "juniper") then
         t21 ← item tokens 2 1;
         t11 ← item tokens 1 1;
         t22 ← item tokens 2 2;
         t32 ← item tokens 3 2;
         t33 ← item tokens 3 3;
         inr (Py.lower t21, t11, t22, t32 +:+ " " +:+ t33)
       else inr (os_type, os_model, os_version, os_buildtime));
  inr (<["ansible_os_buildtime" := os_buildtime]>
       (<["ansible_os_version" := os_version]>
        (<["ansible_os_type" := os_type]>
         (<["ansible_os_model" := os_model]>
          (<["ansible_os_vendor" := os_vendor]> ∅))))).

(** *** Words of the claims about [decode_os] *)

(** The fields of the description, and the words of field [i] (none when
    there is no such field). *)
Definition fields (sysdescr : string) : list string := Py.split_comma sysdescr.
Definition words (sysdescr : string) (i : nat) : list string :=
  from_option Py.split [] (fields sysdescr !! i).

(** The value [decode_os] returns under a key; [None] when it raises or
    the key is not in the result. *)
Definition decoded (sysdescr key : string) : option string :=
  match decode_os sysdescr with
  | inl _ => None
  | inr results => results !! key
  end.

(** The first field that mentions the version. *)
Definition version_field (sysdescr : string) : option string :=
  head (filter (λ f, search_version f = true) (fields sysdescr)).

(** What a description must look like for [decode_os] to return. *)
Definition decodable (sysdescr : string) : Prop :=
  ∃ first vendor,
    fields sysdescr !! 0 = Some first ∧ first ≠ EmptyString ∧
    words sysdescr 0 !! 0 = Some vendor ∧
    (Py.lower vendor = "cisco" →
     (3 ≤ length (words sysdescr 0))%nat ∧
     ∀ f, version_field sysdescr = Some f → (2 ≤ length (Py.split f))%nat) ∧
    (Py.lower vendor = "juniper" →
     (4 ≤ length (fields sysdescr))%nat ∧
     (2 ≤ length (words sysdescr 1))%nat ∧
     (3 ≤ length (words sysdescr 2))%nat ∧
     (4 ≤ length (words sysdescr 3))%nat).

End Sysdescr.


(** ** Sample devices

    Stand-ins for the device layer, used to run the two [main] functions
    on concrete requests. *)

Module Samples.
Import Facts.

(** A device that answers every command with the command itself. *)
Definition echo (commands : list string) : raised + list string :=
  inr commands.

(** Scraping that finds nothing: every key is written, with [None]. *)
Definition iosxr_scrape_ok (name : string) (results : gmap string string)
    : raised + (string → option value) :=
  inr (λ _, Some VNone).

Definition junos_scrape_ok (name : string) : raised + (string → option value) :=
  inr (λ _, Some VNone).


(** [json.loads] handed a dictionary instead of a string. *)
Definition from_json_refuses (results : gmap string string) : raised + value :=
  inl (Exception "TypeError").

End Samples.


(** ** More words about [decode_os] *)

Module SysdescrWords.
Import Sysdescr.

(** What the Cisco branch leaves in [os_type]: the second word of the
    first field, with the third unless that is [software]. *)
Definition cisco_type (sysdescr : string) : option string :=
  w1 ← words sysdescr 0 !! 1;
  w2 ← words sysdescr 0 !! 2;
  Some (if decide (Py.lower w2 = "software") then Py.lower w1
        else Py.lower w1 +:+ "_" +:+ Py.lower w2).

(** What the Cisco branch leaves in [os_version]: the second word of the
    first field that mentions the version, ["Unknown"] without such a
    field. *)
Definition cisco_version (sysdescr : string) : option string :=
  match version_field sysdescr with
  | None => Some "Unknown"
  | Some f => Py.split f !! 1
  end.

(** A Juniper description too short for the field positions the Juniper
    branch reads before it has read a missing word. *)
Definition juniper_short (sysdescr : string) : Prop :=
  ∃ vendor,
    words sysdescr 0 !! 0 = Some vendor ∧ Py.lower vendor = "juniper" ∧
    ((length (fields sysdescr) ≤ 2)%nat ∨
     (length (fields sysdescr) = 3 ∧
      (3 ≤ length (words sysdescr 2))%nat ∧
      (2 ≤ length (words sysdescr 1))%nat)).

End SysdescrWords.

(** ** More words about the resolver and the two [main] functions *)

Module SubsetsWords.
Import Subsets Facts.

#[global] Instance unknown_token_dec valid t : Decision (unknown_token valid t).
Proof. unfold unknown_token. apply _. Defined.

(** The first token, in list order, whose name is unknown. *)
Definition first_unknown (valid : gset string) (tokens : list string)
    : option string :=
  head (filter (unknown_token valid) tokens).


(** Two classes of a catalog never write the same key. *)
Definition keys_apart (catalog : gmap string extractor) : Prop :=
  map_Forall (λ n1 c1,
    map_Forall (λ n2 c2,
      n1 = n2 ∨ Forall (λ k, k ∉ fact_keys c2) (fact_keys c1)) catalog) catalog.

(** A key of a returned dictionary that a selected subset accounts for:
    the tagged form of a key its class writes. *)
Definition key_of_selected (catalog : gmap string extractor) (rs : gset string)
    (key : string) : Prop :=
  ∃ name cls k,
    name ∈ rs ∧ catalog !! name = Some cls ∧ k ∈ fact_keys cls ∧
    key = "ansible_net_" +:+ k.

End SubsetsWords.

(** ** iosxr_facts.py: the parsers that use no regular expression, or
    only one that cuts at a fixed word *)

Module IosxrParsers.
Import Facts.

(** The exceptions these parsers can raise: a method called on the
    [None] of a failed match, a list index out of range, a missing key. *)
Inductive exn := AttributeError | IndexError | KeyError.

#[global] Instance exn_eq_dec : EqDecision exn.
Proof. solve_decision. Defined.

#[global] Instance exn_bind : MBind (sum exn) := λ A B f x,
  match x with
  | inl e => inl e
  | inr a => f a
  end.

Definition newline : ascii := "010"%char.

(** [data.split('\n')]. *)
Definition lines (data : string) : list string :=
  Py.split_by (λ c, Ascii.eqb c newline) data.

(** [var[i]] on a list of words. *)
Definition word (var : list string) (i : nat) : exn + string :=
  match var !! i with
  | None => inl IndexError
  | Some w => inr w
  end.

(** [results[command]] on the dictionary of responses. *)
Definition response (results : gmap string string) (command : string)
    : exn + string :=
  match results !! command with
  | None => inl KeyError
  | Some data => inr data
  end.

(** *** [Default.populate_serial] *)

Definition dashes : string :=
  "---------------------------------------------------------".

(** The list [self.facts['serial']] after the loop. *)
Definition populate_serial (data : string) : list string :=
  filter (λ line, line ≠ dashes) (lines data).

(** *** [Multicast] *)

Definition populate_mfib_con (mfib_con : string) : list string :=
  lines mfib_con.

Definition populate_mfib_counter (mfib_counter : string) : list string :=
  lines mfib_counter.

Definition populate_mrib_route_out (mrib_route_out : string) : list string :=
  filter (λ route, String.prefix "(" route = true) (lines mrib_route_out).

(** [Multicast.populate]: [self.facts] when it returns. *)
Definition multicast_populate (results : gmap string string)
    : exn + gmap string value :=
  mfib_con ← response results "show mfib connections";
  mfib_counter ← response results "show mfib counter";
  mrib_route_out ← response results "show mrib route outgoing-interface";
  inr (<["mrib_route_outgoing_if" :=
           VList (VStr <$> populate_mrib_route_out mrib_route_out)]>
       (<["mfib_counter" := VList (VStr <$> populate_mfib_counter mfib_counter)]>
        (<["mfib_connections" := VList (VStr <$> populate_mfib_con mfib_con)]>
         ∅))).

(** *** [L2vpn.parse_l2vpn] *)

(** The inner dictionary of one cross-connect. *)
Record xconnect := Xconnect {
  State : string;
  Interface : string;
  Address : string
}.

#[global] Instance xconnect_eq_dec : EqDecision xconnect.
Proof. solve_decision. Defined.

(** The loop over [lines[6:]], with its variables [combined] and
    [parsed]. *)
Fixpoint l2vpn_loop (rows : list string) (combined : string)
    (parsed : gmap string xconnect) : exn + gmap string xconnect :=
  match rows with
  | [] => inr parsed
  | line :: rest =>
      if String.prefix "--" line then l2vpn_loop rest combined parsed
      else
        let combined :=
          if (length (Py.split line) <=? 6)%nat then combined +:+ line
          else combined in
        let '(line, combined) :=
          if (length (Py.split combined) =? 8)%nat then (combined, EmptyString)
          else (line, combined) in
        if (length (Py.split line) =? 8)%nat then
          let var := Py.split line in
          group ← word var 0;
          name ← word var 1;
          state ← word var 2;
          interface ← word var 3;
          address ← word var 5;
          l2vpn_loop rest combined (<[name := Xconnect state interface address]> parsed)
        else l2vpn_loop rest combined parsed
  end.

Definition parse_l2vpn (data : string) : exn + gmap string xconnect :=
  l2vpn_loop (drop 6 (lines data)) EmptyString ∅.

(** The entry a row of the table stands for, when the row is not a rule
    and has the eight columns. *)
Definition xconnect_row (row : string) : option (string * xconnect) :=
  if String.prefix "--" row then None
  else
    match Py.split row with
    | [group; name; state; interface; _; address; _; _] =>
        Some (name, Xconnect state interface address)
    | _ => None
    end.

(** A row the loop takes as a whole: a rule, a blank row, or a row of
    eight columns. *)
Definition plain_row (row : string) : Prop :=
  String.prefix "--" row = true ∨ Py.split row = [] ∨ length (Py.split row) = 8.

#[global] Instance plain_row_dec row : Decision (plain_row row).
Proof. unfold plain_row. apply _. Defined.

(** *** [Interfaces.parse_interfaces] *)

(** [re.match(r'^(\S+)', line).group(1)]: the characters before the
    first whitespace; empty when the match fails. *)
Fixpoint leading_word (line : string) : string :=
  match line with
  | EmptyString => EmptyString
  | String c rest =>
      if Py.isspace c then EmptyString else String c (leading_word rest)
  end.

(** The loop over the lines, with its variables [key] and [parsed]. *)
Fixpoint interfaces_loop (rows : list string) (key : string)
    (parsed : gmap string string) : exn + gmap string string :=
  match rows with
  | [] => inr parsed
  | line :: rest =>
      match line with
      | EmptyString => interfaces_loop rest key parsed
      | String " "%char _ =>
          match parsed !! key with
          | None => inl KeyError
          | Some block =>
              interfaces_loop rest key
                (<[key := block +:+ String newline line]> parsed)
          end
      | _ =>
          let match_ := leading_word line in
          if decide (match_ = EmptyString) then interfaces_loop rest key parsed
          else interfaces_loop rest match_ (<[match_ := line]> parsed)
      end
  end.

Definition parse_interfaces (data : string) : exn + gmap string string :=
  interfaces_loop (lines data) EmptyString ∅.

(** A line that continues a block, and a line that opens one. *)
Definition continues (line : string) : bool :=
  match line with
  | String " "%char _ => true
  | _ => false
  end.
Definition opens (line : string) : bool :=
  match line with
  | EmptyString => false
  | String c _ => negb (Py.isspace c)
  end.

(** The first line that continues or opens a block. *)
Definition first_block_line (data : string) : option string :=
  head (filter (λ line, continues line || opens line = true) (lines data)).

(** *** [Route_Summary.parse_route_sum] *)

(** [hay] without its beginning [needle]; [None] when it does not begin
    with it. *)
Fixpoint strip_prefix (needle hay : string) : option string :=
  match needle with
  | EmptyString => Some hay
  | String a needle' =>
      match hay with
      | EmptyString => None
      | String b hay' =>
          if Ascii.eqb a b then strip_prefix needle' hay' else None
      end
  end.

(** The second group of the pattern of [parse_route_sum], which is
    anything, [MET], anything, the dot matching line ends too: the first
    group is greedy, so the text is cut after the last [needle]; [None]
    when there is none and the search fails. *)
Fixpoint after_last (needle hay : string) : option string :=
  let later :=
    match hay with
    | EmptyString => None
    | String _ rest => after_last needle rest
    end in
  match later with
  | Some tail => Some tail
  | None => strip_prefix needle hay
  end.

(** The inner dictionary of one route source. *)
Record route_source := RouteSource {
  Routes : string;
  Backup : string;
  Deleted : string;
  Memory : string
}.

#[global] Instance route_source_eq_dec : EqDecision route_source.
Proof. solve_decision. Defined.

(** A line of the table that the loop reads as a row. *)
Definition route_row (line : string) : bool :=
  negb (String.prefix "Route Source" line || bool_decide (line = EmptyString)).

Fixpoint route_sum_loop (rows : list string)
    (routesum : gmap string route_source) : exn + gmap string route_source :=
  match rows with
  | [] => inr routesum
  | line :: rest =>
      if route_row line then
        let var := Py.split line in
        source ← word var 0;
        routes ← word var 1;
        backup ← word var 2;
        deleted ← word var 3;
        memory ← word var 4;
        route_sum_loop rest
          (<[source := RouteSource routes backup deleted memory]> routesum)
      else route_sum_loop rest routesum
  end.

Definition parse_route_sum (data : string) : exn + gmap string route_source :=
  match after_last "MET" data with
  | None => inl AttributeError
  | Some table => route_sum_loop (lines table) ∅
  end.

(** *** Sample responses *)

Definition sample_xconnect : string :=
  "Legend: ST = State, UP = Up, DN = Down
        SB = Standby, SR = Standby Ready

XConnect                   Segment 1         Segment 2
Group      Name       ST   Description  ST   Description   ST
------------------------   ---------------   ---------------------
core       xc1        UP   Gi0/0/0/1    UP   10.0.0.1 100  UP
------------------------------------------------------------------
core       xc2        DN   Gi0/0/0/2    DN   10.0.0.2 200  DN
".

Definition sample_interfaces : string :=
  "GigabitEthernet0/0/0/0 is up, line protocol is up
  Hardware is GigabitEthernet, address is 0000.0000.0001
  MTU 1514 bytes, BW 1000000 Kbit

Loopback0 is up, line protocol is up
  Internet address is 10.0.0.1/32
".

Definition sample_route_summary : string :=
  "Mon Apr  3 10:00:00.000 MET
Route Source    Routes    Backup    Deleted    Memory (bytes)
connected       4         1         0          800
local           5         0         0          800
".

End IosxrParsers.

(** ** iosxr_facts.py: the LLDP neighbours *)

Module IosxrNeighbors.
Import IosxrParsers.

(** [s.split(sep)] for a separator of several characters: the string is
    cut at each occurrence of [sep] found from left to right, the
    occurrences not overlapping. [skip] counts the characters of a found
    occurrence still to pass over. *)
Fixpoint split_on (sep : string) (skip : nat) (s : string) : list string :=
  match s with
  | EmptyString => [EmptyString]
  | String c rest =>
      match skip with
      | S skip' => split_on sep skip' rest
      | O =>
          if String.prefix sep s
          then EmptyString :: split_on sep (String.length sep - 1) rest
          else match split_on sep 0 rest with
               | [] => [String c EmptyString]
               | w :: ws => String c w :: ws
               end
      end
  end.

(** What follows the first occurrence of [needle] in [hay]. *)
Fixpoint after_first (needle hay : string) : option string :=
  match strip_prefix needle hay with
  | Some tail => Some tail
  | None =>
      match hay with
      | EmptyString => None
      | String _ rest => after_first needle rest
      end
  end.

(** The group [(.+)] has at least one character. *)
Definition some_text (s : option string) : option string :=
  match s with
  | Some (String c rest) => Some (String c rest)
  | _ => None
  end.

(** [re.search(label + '(.+)$', data, re.M)]: the rest of the first
    line in which [label] is followed by something; [None] when the
    search fails and the parser returns nothing. *)
Definition search_rest (label data : string) : option string :=
  head (omap (λ line, some_text (after_first label line)) (lines data)).

(** [re.search('^' + label + '(.+)$', data, re.M)]: the same, the line
    beginning with [label]. *)
Definition search_line (label data : string) : option string :=
  head (omap (λ line, some_text (strip_prefix label line)) (lines data)).

Definition parse_lldp_intf (data : string) : option string :=
  search_line "Local Interface: " data.
Definition parse_lldp_host (data : string) : option string :=
  search_rest "System Name: " data.
Definition parse_lldp_port (data : string) : option string :=
  search_rest "Port id: " data.

(** The dictionary [fact] of one neighbour. *)
Record neighbor := Neighbor {
  host : option string;
  port : option string
}.

Definition separator : string :=
  "------------------------------------------------".

(** The loop over [nbors[1:]]; the key is [None] when the entry names no
    local interface. *)
Fixpoint neighbors_loop (entries : list string)
    (facts : gmap (option string) (list neighbor))
    : exn + gmap (option string) (list neighbor) :=
  match entries with
  | [] => inr facts
  | entry :: rest =>
      if decide (entry = EmptyString) then neighbors_loop rest facts
      else
        let intf := parse_lldp_intf entry in
        let facts :=
          match facts !! intf with
          | None => <[intf := []]> facts
          | Some _ => facts
          end in
        let fact := Neighbor (parse_lldp_host entry) (parse_lldp_port entry) in
        match facts !! intf with
        | None => inl KeyError
        | Some list => neighbors_loop rest (<[intf := list ++ [fact]]> facts)
        end
  end.

Definition parse_neighbors (neighbors : string)
    : exn + gmap (option string) (list neighbor) :=
  neighbors_loop (drop 1 (split_on separator 0 neighbors)) ∅.

(** The entries the loop does not pass over. *)
Definition entries (neighbors : string) : list string :=
  filter (λ entry, entry ≠ EmptyString) (drop 1 (split_on separator 0 neighbors)).

(** How many neighbours a result holds, all interfaces together. *)
Definition neighbor_count (facts : gmap (option string) (list neighbor)) : nat :=
  map_fold (λ _ list n, length list + n) 0 facts.

Definition sample_neighbors : string :=
  "Capability codes: (R) Router, (B) Bridge
------------------------------------------------
Local Interface: GigabitEthernet0/0/0/0
Chassis id: 0000.0000.0002
Port id: Gi0/0/0/1
System Name: core2

------------------------------------------------
Local Interface: GigabitEthernet0/0/0/0
Port id: Gi0/0/0/2
System Name: core3
".

End IosxrNeighbors.

(** ** [iosxr_facts.py]: [Route_Summary.populate] over its parser *)

Module RouteSummaryRun.
Import Facts IosxrParsers.





End RouteSummaryRun.


(** * Properties *)

(** ** Strings *)

Module PyFacts.
Import Py.

Lemma prefix_app (n rest : string) : String.prefix n (n +:+ rest) = true.
Proof.
  induction n as [|c n IH]; simpl; [by destruct rest|].
  by destruct (ascii_dec c c).
Qed.

Lemma prefix_app_r (n h rest : string) :
  String.prefix n h = true → String.prefix n (h +:+ rest) = true.
Proof.
  revert h. induction n as [|c n IH]; intros h.
  - intros _. by destruct (h +:+ rest).
  - destruct h as [|d h]; [done|]. simpl.
    destruct (ascii_dec c d); [apply IH|done].
Qed.

Lemma contains_unfold (n h : string) :
  contains n h =
    String.prefix n h ||
    match h with EmptyString => false | String _ rest => contains n rest end.
Proof. by destruct h. Qed.

Lemma contains_prefix (n h : string) :
  String.prefix n h = true → contains n h = true.
Proof. intros H. by rewrite contains_unfold, H. Qed.

Lemma contains_app_l (a n h : string) :
  contains n h = true → contains n (a +:+ h) = true.
Proof.
  intros H. induction a as [|c a IH]; [done|].
  rewrite contains_unfold. simpl. rewrite IH. apply orb_true_r.
Qed.

Lemma contains_app_r (n h rest : string) :
  contains n h = true → contains n (h +:+ rest) = true.
Proof.
  induction h as [|c h IH]; rewrite (contains_unfold n).
  - rewrite orb_false_r. intros H. apply contains_prefix.
    by apply (prefix_app_r n EmptyString rest).
  - intros [H|H]%orb_true_iff; rewrite contains_unfold.
    + by rewrite (prefix_app_r _ _ rest H).
    + simpl. rewrite (IH H). apply orb_true_r.
Qed.

Lemma contains_refl (n : string) : contains n n = true.
Proof.
  apply contains_prefix. induction n as [|c n IH]; simpl; [done|].
  by destruct (ascii_dec c c).
Qed.

(** Every joined string can be read off the result of [join]. *)
Lemma contains_join (sep x : string) (l : list string) :
  x ∈ l → contains x (join sep l) = true.
Proof.
  unfold join. induction l as [|y l IH]; [by intros ?%elem_of_nil|].
  intros [->|Hx]%elem_of_cons; simpl.
  - destruct l; [apply contains_refl|].
    apply contains_app_r, contains_refl.
  - destruct l as [|z l]; [by apply elem_of_nil in Hx|].
    apply contains_app_l, contains_app_l. by apply IH.
Qed.

(** Prefixing with a fixed string loses nothing. *)
#[global] Instance append_inj (p : string) : Inj (=) (=) (String.append p).
Proof.
  intros a b. induction p as [|c p IH]; simpl; [done|].
  intros [= H]. by apply IH.
Qed.

End PyFacts.

(** ** The resolver *)

Module SubsetsFacts.
Import Subsets.

Section resolver_facts.
Variable bad_subset : gset string → string → string.
Variable VALID_SUBSETS : gset string.

Abbreviation gather_loop := (gather_loop bad_subset VALID_SUBSETS).
Abbreviation resolve := (resolve bad_subset VALID_SUBSETS).
Abbreviation requested := (requested VALID_SUBSETS).
Abbreviation negated := (negated VALID_SUBSETS).
Abbreviation spec_runset := (spec_runset VALID_SUBSETS).
Abbreviation valid_token := (valid_token VALID_SUBSETS).
Abbreviation plain_names := (plain_names VALID_SUBSETS).

(** When the loop ends normally, the two accumulators have grown by the
    requested and by the negated names of the tokens. *)
Lemma gather_loop_sound tokens : ∀ R E R' E',
  gather_loop tokens R E = inr (R', E') →
  R' = R ∪ requested tokens ∧ E' = E ∪ negated tokens.
Proof.
  induction tokens as [|t rest IH]; intros R E R' E' Hloop; simpl in Hloop.
  - injection Hloop as <- <-. simpl. set_solver.
  - case_decide as Hall.
    + subst t. apply IH in Hloop as [-> ->]. simpl. set_solver.
    + simpl. destruct (Py.strip_bang t) as [name|] eqn:Hbang.
      * case_decide as Hnall.
        { apply IH in Hloop as [-> ->]. set_solver. }
        case_decide; [|discriminate].
        apply IH in Hloop as [-> ->]. set_solver.
      * case_decide; [|discriminate].
        rewrite decide_False by done.
        apply IH in Hloop as [-> ->]. set_solver.
Qed.

(** Only valid names are ever requested by a list the loop accepts. *)
Lemma gather_loop_requested_valid tokens : ∀ R E R' E',
  gather_loop tokens R E = inr (R', E') → requested tokens ⊆ VALID_SUBSETS.
Proof.
  induction tokens as [|t rest IH]; intros R E R' E' Hloop; simpl in *.
  - set_solver.
  - case_decide as Hall.
    + subst t. simpl. apply IH in Hloop. set_solver.
    + destruct (Py.strip_bang t) as [name|] eqn:Hbang.
      * repeat case_decide; try discriminate; by eapply IH.
      * case_decide; [|discriminate]. apply IH in Hloop. set_solver.
Qed.

(** The loop accepts every list of valid tokens. *)
Lemma gather_loop_total tokens :
  plain_names → Forall valid_token tokens →
  ∀ R E, ∃ p, gather_loop tokens R E = inr p.
Proof.
  intros Hplain Hvalid.
  induction Hvalid as [|t rest Ht _ IH]; intros R E; simpl; [eauto|].
  case_decide as Hall; [apply IH|].
  destruct Ht as [->|[->|[Hin|(name & Hin & ->)]]]; [done|simpl..].
  - apply IH.
  - rewrite (Hplain _ Hin). rewrite decide_True by done. apply IH.
  - case_decide; [apply IH|]. rewrite decide_True by done. apply IH.
Qed.

(** Whatever the loop returns, [resolve] returns the set the
    specification describes. *)
Lemma resolve_sound tokens rs :
  resolve tokens = inr rs → rs = spec_runset tokens.
Proof.
  unfold resolve, spec_runset.
  destruct (gather_loop tokens ∅ ∅) as [msg|[R E]] eqn:Hloop; [done|].
  apply gather_loop_sound in Hloop as [-> ->].
  intros [= <-]. rewrite !(left_id_L ∅ (∪)).
  case_decide as Hempty; [|done]. rewrite Hempty. by rewrite (left_id_L ∅ (∪)).
Qed.

Lemma resolve_requested_valid tokens rs :
  resolve tokens = inr rs → requested tokens ⊆ VALID_SUBSETS.
Proof.
  unfold resolve.
  destruct (gather_loop tokens ∅ ∅) as [msg|[R E]] eqn:Hloop; [done|].
  intros _. by eapply gather_loop_requested_valid.
Qed.

Lemma resolve_valid_tokens tokens :
  plain_names → Forall valid_token tokens →
  resolve tokens = inr (spec_runset tokens).
Proof.
  intros Hplain Hvalid.
  destruct (gather_loop_total tokens Hplain Hvalid ∅ ∅) as [[R E] Hloop].
  assert (∃ rs, resolve tokens = inr rs) as [rs Hrs].
  { unfold resolve. rewrite Hloop. eauto. }
  by rewrite Hrs, (resolve_sound _ _ Hrs).
Qed.

(** A run set holds valid names and [default], nothing else. *)
Lemma resolve_within tokens rs :
  resolve tokens = inr rs → rs ⊆ VALID_SUBSETS ∪ {["default"]}.
Proof.
  intros Hrs. pose proof (resolve_requested_valid _ _ Hrs) as Hreq.
  apply resolve_sound in Hrs as ->. unfold spec_runset.
  case_decide; set_solver.
Qed.

(** A name that some token negates is in the negated set, or everything
    valid is. *)
Lemma negates_negated name tokens :
  negates name tokens → name ∈ negated tokens ∨ VALID_SUBSETS ⊆ negated tokens.
Proof.
  intros [Hin|Hin].
  - induction tokens as [|t rest IH]; [by apply elem_of_nil in Hin|].
    apply elem_of_cons in Hin as [<-|Hin]; simpl.
    + case_decide as Hall; [right|left]; set_solver.
    + destruct (IH Hin); destruct (Py.strip_bang t); set_solver.
  - right. induction tokens as [|t rest IH]; [by apply elem_of_nil in Hin|].
    apply elem_of_cons in Hin as [<-|Hin]; simpl.
    + set_solver.
    + specialize (IH Hin). destruct (Py.strip_bang t); set_solver.
Qed.

(** The loop stops at the first token whose name is unknown, with the
    message for that name. *)
Lemma gather_loop_unknown tokens : ∀ R E,
  Exists (unknown_token VALID_SUBSETS) tokens →
  ∃ t, t ∈ tokens ∧ unknown_token VALID_SUBSETS t ∧
       gather_loop tokens R E = inl (bad_subset VALID_SUBSETS (stripped t)).
Proof.
  induction tokens as [|t rest IH]; intros R E Hex; [by inversion Hex|].
  assert (unknown_token VALID_SUBSETS t ∨
          (¬ unknown_token VALID_SUBSETS t ∧
           Exists (unknown_token VALID_SUBSETS) rest)) as [Ht|[Ht Hrest]].
  { destruct (decide (stripped t = "all")) as [Hall|Hall];
      [|destruct (decide (stripped t ∈ VALID_SUBSETS)) as [Hin|Hin]].
    - right. inversion Hex as [?? []|]; subst; [done|]. split; [|done]. by intros [].
    - right. inversion Hex as [?? []|]; subst; [done|]. split; [|done]. by intros [].
    - by left. }
  - exists t. split; [set_solver|]. split; [done|].
    destruct Ht as [Hall Hin]. unfold stripped in *. simpl.
    destruct (Py.strip_bang t) as [name|] eqn:Hbang; simpl in *.
    + rewrite decide_False by (intros ->; discriminate).
      by rewrite !decide_False by done.
    + by rewrite !decide_False by done.
  - assert (∀ R' E', ∃ t', t' ∈ t :: rest ∧ unknown_token VALID_SUBSETS t' ∧
      gather_loop rest R' E' = inl (bad_subset VALID_SUBSETS (stripped t')))
      as Hnext.
    { intros R' E'. destruct (IH R' E' Hrest) as (t' & ? & ? & ?).
      exists t'. set_solver. }
    simpl. case_decide; [apply Hnext|].
    unfold unknown_token, stripped in Ht.
    destruct (Py.strip_bang t) as [name|] eqn:Hbang; simpl in Ht.
    + case_decide; [apply Hnext|]. case_decide; [apply Hnext|]. tauto.
    + case_decide; [apply Hnext|]. tauto.
Qed.

Lemma resolve_unknown tokens :
  Exists (unknown_token VALID_SUBSETS) tokens →
  ∃ t, t ∈ tokens ∧ unknown_token VALID_SUBSETS t ∧
       resolve tokens = inl (bad_subset VALID_SUBSETS (stripped t)).
Proof.
  intros Hex. destruct (gather_loop_unknown tokens ∅ ∅ Hex) as (t & ? & ? & Hloop).
  exists t. unfold resolve. by rewrite Hloop.
Qed.

(** C1. For every token list and every catalog, a run set that the
    resolver returns contains [default]; the lists [["!all"]] and
    [["!default"]] (the latter when the catalog has [default]) are
    resolved without error and keep it too. *)
Theorem default_always_selected :
  (∀ tokens rs, resolve tokens = inr rs → "default" ∈ rs) ∧
  resolve ["!all"] = inr {["default"]} ∧
  ("default" ∈ VALID_SUBSETS →
   resolve ["!default"] = inr ((VALID_SUBSETS ∖ {["default"]}) ∪ {["default"]})).
Proof.
  split_and!.
  - intros tokens rs ->%resolve_sound. unfold spec_runset. set_solver.
  - unfold resolve. simpl. rewrite decide_True by set_solver.
    f_equal. set_solver.
  - intros Hdef. unfold resolve. simpl.
    rewrite (decide_True (P:="default" ∈ VALID_SUBSETS)) by done.
    rewrite decide_True by set_solver. f_equal. set_solver.
Qed.

(** C2. A list of valid tokens resolves, without error, to
    [((I if I is non-empty else validNames) − E) ∪ {default}]; the empty
    list resolves to every valid name plus [default]. *)
Theorem resolve_is_spec_runset :
  (plain_names → ∀ tokens, Forall valid_token tokens →
   resolve tokens = inr (spec_runset tokens)) ∧
  resolve [] = inr (VALID_SUBSETS ∪ {["default"]}).
Proof.
  split; [intros Hplain tokens Hvalid; by apply resolve_valid_tokens|].
  unfold resolve. simpl. rewrite decide_True by done. f_equal. set_solver.
Qed.

(** C4. When a list both includes and negates a name other than
    [default], the name is not in the run set; [["all"; "!hardware"]]
    resolves to every valid name except [hardware], plus [default]. *)
Theorem negation_wins :
  (∀ tokens name rs,
     resolve tokens = inr rs →
     includes name tokens → negates name tokens → name ≠ "default" →
     name ∉ rs) ∧
  ("hardware" ∈ VALID_SUBSETS →
   resolve ["all"; "!hardware"] =
     inr ((VALID_SUBSETS ∖ {["hardware"]}) ∪ {["default"]})).
Proof.
  split.
  - intros tokens name rs Hrs _ Hneg Hdef.
    pose proof (resolve_requested_valid _ _ Hrs) as Hreq.
    apply resolve_sound in Hrs as ->. unfold spec_runset.
    destruct (negates_negated _ _ Hneg); case_decide; set_solver.
  - intros Hhw. unfold resolve. simpl. rewrite decide_True by done.
    case_decide; f_equal; set_solver.
Qed.

(** C8. On the catalog [{default, hardware, interfaces, config}] the
    list [["hardware"]] resolves to [{hardware, default}]; in general,
    once some name is positively requested, a valid name that is not
    (and is not [default]) is left out of the run set. *)
Theorem positive_request_restricts :
  Subsets.resolve bad_subset {["default"; "hardware"; "interfaces"; "config"]}
    ["hardware"] = inr {["hardware"; "default"]} ∧
  ∀ tokens rs name,
    resolve tokens = inr rs → requested tokens ≠ ∅ →
    name ∉ requested tokens → name ≠ "default" → name ∉ rs.
Proof.
  split.
  - unfold Subsets.resolve. simpl. rewrite decide_True by set_solver.
    rewrite decide_False by set_solver. f_equal; set_solver.
  - intros tokens rs name ->%resolve_sound Hne Hnot Hdef.
    unfold spec_runset. rewrite decide_False by done. set_solver.
Qed.

End resolver_facts.

(** The catalogs of the two modules hold identifiers only. *)
Lemma iosxr_plain_names : plain_names Iosxr.VALID_SUBSETS.
Proof.
  assert (set_Forall (λ name, Py.strip_bang name = None) Iosxr.VALID_SUBSETS)
    as H by by_compute.
  exact H.
Qed.

Lemma junos_plain_names : plain_names Junos.VALID_SUBSETS.
Proof.
  assert (set_Forall (λ name, Py.strip_bang name = None) Junos.VALID_SUBSETS)
    as H by by_compute.
  exact H.
Qed.

(** On the catalogs the modules have, valid tokens need no side
    condition. *)
Lemma iosxr_resolve_valid_tokens tokens :
  Forall (valid_token Iosxr.VALID_SUBSETS) tokens →
  Subsets.resolve Iosxr.bad_subset Iosxr.VALID_SUBSETS tokens =
    inr (spec_runset Iosxr.VALID_SUBSETS tokens).
Proof. apply resolve_valid_tokens, iosxr_plain_names. Qed.

Lemma junos_resolve_valid_tokens order tokens :
  Forall (valid_token Junos.VALID_SUBSETS) tokens →
  Subsets.resolve (Junos.bad_subset order) Junos.VALID_SUBSETS tokens =
    inr (spec_runset Junos.VALID_SUBSETS tokens).
Proof. apply resolve_valid_tokens, junos_plain_names. Qed.

(** The resolver on the examples of the module documentation. *)
Example iosxr_gather_all :
  Subsets.resolve Iosxr.bad_subset Iosxr.VALID_SUBSETS ["all"] =
    inr Iosxr.VALID_SUBSETS.
Proof. by_compute. Qed.

Example iosxr_gather_config :
  Subsets.resolve Iosxr.bad_subset Iosxr.VALID_SUBSETS ["config"] =
    inr {["config"; "default"]}.
Proof. by_compute. Qed.

Example iosxr_gather_not_hardware :
  Subsets.resolve Iosxr.bad_subset Iosxr.VALID_SUBSETS ["!hardware"] =
    inr (Iosxr.VALID_SUBSETS ∖ {["hardware"]}).
Proof. by_compute. Qed.

Example iosxr_gather_bogus :
  Subsets.resolve Iosxr.bad_subset Iosxr.VALID_SUBSETS ["hardware"; "!bogus"] =
    inl "Bad subset".
Proof. by_compute. Qed.

Lemma default_always_selected_witness :
  Subsets.resolve Iosxr.bad_subset Iosxr.VALID_SUBSETS ["!default"] =
    inr (Iosxr.VALID_SUBSETS ∖ {["default"]} ∪ {["default"]}) ∧
  "default" ∈ Iosxr.VALID_SUBSETS ∖ {["default"]} ∪ {["default"]}.
Proof.
  assert (Subsets.resolve Iosxr.bad_subset Iosxr.VALID_SUBSETS ["!default"] =
    inr (Iosxr.VALID_SUBSETS ∖ {["default"]} ∪ {["default"]})) as H
    by by_compute.
  split; [exact H|].
  exact (proj1 (default_always_selected Iosxr.bad_subset Iosxr.VALID_SUBSETS)
           ["!default"] _ H).
Defined.

Lemma resolve_is_spec_runset_witness :
  Forall (valid_token Iosxr.VALID_SUBSETS) ["hardware"; "!config"] ∧
  Subsets.resolve Iosxr.bad_subset Iosxr.VALID_SUBSETS ["hardware"; "!config"] =
    inr (spec_runset Iosxr.VALID_SUBSETS ["hardware"; "!config"]).
Proof.
  assert (Forall (valid_token Iosxr.VALID_SUBSETS) ["hardware"; "!config"]) as H.
  { constructor; [|constructor; [|constructor]].
    - right; right; left. by_compute.
    - right; right; right. exists "config". split; [by_compute|reflexivity]. }
  split; [exact H|].
  exact (proj1 (resolve_is_spec_runset Iosxr.bad_subset Iosxr.VALID_SUBSETS)
           iosxr_plain_names _ H).
Defined.

Lemma negation_wins_witness :
  Subsets.resolve Iosxr.bad_subset Iosxr.VALID_SUBSETS
    ["hardware"; "bgp"; "!hardware"] = inr {["bgp"; "default"]} ∧
  "hardware" ∉ ({["bgp"; "default"]} : gset string).
Proof.
  assert (Subsets.resolve Iosxr.bad_subset Iosxr.VALID_SUBSETS
    ["hardware"; "bgp"; "!hardware"] = inr {["bgp"; "default"]}) as H
    by by_compute.
  split; [exact H|].
  refine (proj1 (negation_wins Iosxr.bad_subset Iosxr.VALID_SUBSETS)
            ["hardware"; "bgp"; "!hardware"] "hardware" _ H _ _ _).
  - left. by_compute.
  - left. by_compute.
  - discriminate.
Defined.

Lemma positive_request_restricts_witness :
  Subsets.resolve Iosxr.bad_subset Iosxr.VALID_SUBSETS ["hardware"] =
    inr {["hardware"; "default"]} ∧
  "config" ∉ ({["hardware"; "default"]} : gset string).
Proof.
  assert (Subsets.resolve Iosxr.bad_subset Iosxr.VALID_SUBSETS ["hardware"] =
    inr {["hardware"; "default"]}) as H by by_compute.
  split; [exact H|].
  refine (proj2 (positive_request_restricts Iosxr.bad_subset Iosxr.VALID_SUBSETS)
            ["hardware"] _ "config" H _ _ _).
  - by_compute.
  - by_compute.
  - discriminate.
Defined.

End SubsetsFacts.

(** ** The two [main] functions *)

Module MainFacts.
Import Facts Subsets.

(** Evaluate the tests of the resolver loop on a literal token list. *)
Ltac resolve_literal :=
  unfold Subsets.resolve; cbn [Subsets.gather_loop Py.strip_bang];
  repeat first [ rewrite decide_True by by_compute
               | rewrite decide_False by by_compute ].

Section rejection.
Variable order : gset string → list string.
Hypothesis order_perm : ∀ s, order s ≡ₚ elements s.

(** [iosxr_facts]: an unknown name ends the run at once, with a fixed
    text and no command sent. *)
Lemma iosxr_main_unknown run_commands scrape from_json warnings tokens :
  Exists (unknown_token Iosxr.VALID_SUBSETS) tokens →
  Iosxr.main order run_commands scrape from_json warnings tokens =
    ([], FailJson "Bad subset").
Proof.
  intros Hex. unfold Iosxr.main.
  destruct (SubsetsFacts.resolve_unknown Iosxr.bad_subset _ _ Hex)
    as (t & _ & _ & ->).
  done.
Qed.

(** [junos_facts]: an unknown name ends the run at once, no subset has
    talked to the device, and the text both names the unknown subset and
    lists every valid one. *)
Lemma junos_main_unknown scrape warnings tokens :
  Exists (unknown_token Junos.VALID_SUBSETS) tokens →
  ∃ t msg,
    t ∈ tokens ∧ unknown_token Junos.VALID_SUBSETS t ∧
    Junos.main order scrape warnings tokens = ([], FailJson msg) ∧
    Py.contains (stripped t) msg = true ∧
    ∀ name, name ∈ Junos.VALID_SUBSETS → Py.contains name msg = true.
Proof.
  intros Hex. unfold Junos.main.
  destruct (SubsetsFacts.resolve_unknown (Junos.bad_subset order) _ _ Hex)
    as (t & Hin & Hun & ->).
  exists t, (Junos.bad_subset order Junos.VALID_SUBSETS (stripped t)).
  split_and!; [done..| |].
  - unfold Junos.bad_subset.
    do 3 apply PyFacts.contains_app_l. apply PyFacts.contains_refl.
  - intros name Hname. unfold Junos.bad_subset.
    apply PyFacts.contains_app_l, PyFacts.contains_app_r.
    apply PyFacts.contains_join. rewrite order_perm. by apply elem_of_elements.
Qed.

End rejection.

(** *** Aggregation *)

Lemma namespaced_kmap (facts : gmap string value) :
  namespaced facts = kmap (String.append "ansible_net_") facts.
Proof.
  unfold namespaced, kmap. rewrite map_fold_foldr.
  induction (map_to_list facts) as [|[k v] l IH]; simpl; [done|].
  by rewrite IH.
Qed.

Lemma namespaced_keys (facts : gmap string value) key :
  is_Some (namespaced facts !! key) → String.prefix "ansible_net_" key = true.
Proof.
  rewrite namespaced_kmap, lookup_kmap_is_Some by apply PyFacts.append_inj.
  intros (k & -> & _). apply PyFacts.prefix_app.
Qed.

Lemma namespaced_lookup (facts : gmap string value) key :
  namespaced facts !! ("ansible_net_" +:+ key) = facts !! key.
Proof.
  rewrite namespaced_kmap.
  apply (lookup_kmap (String.append "ansible_net_") (Inj0:=PyFacts.append_inj _)).
Qed.

(** [populate] writes the keys of its class and no other. *)
Lemma facts_of_other keys scraped key :
  key ∉ keys → facts_of keys scraped !! key = None.
Proof.
  intros Hkey. apply not_elem_of_list_to_map_1.
  rewrite list_elem_of_fmap. intros ([k v] & -> & Hin).
  apply list_elem_of_omap in Hin as (k' & Hk' & Heq).
  destruct (scraped k'); simplify_eq/=. done.
Qed.

(** The instances are the classes the catalog has for the keys. *)
Lemma instantiate_Some catalog keys insts :
  instantiate catalog keys = Some insts →
  Forall2 (λ key p, p.1 = key ∧ catalog !! key = Some p.2) keys insts.
Proof.
  intros H%mapM_Some_1. eapply Forall2_impl; [done|].
  intros key [name cls] Hp. simpl in *.
  destruct (catalog !! key); simplify_eq/=. done.
Qed.

Lemma instantiate_elem catalog keys insts name cls :
  instantiate catalog keys = Some insts →
  name ∈ keys → catalog !! name = Some cls → (name, cls) ∈ insts.
Proof.
  intros Hinst%instantiate_Some [i Hi]%list_elem_of_lookup_1 Hcls.
  destruct (Forall2_lookup_l _ _ _ _ _ Hinst Hi) as ([n c] & Hp & Hn & Hc).
  simpl in *. subst n. rewrite Hcls in Hc. injection Hc as <-.
  apply list_elem_of_lookup. eauto.
Qed.

Lemma instantiate_classes catalog keys insts (P : extractor → Prop) :
  instantiate catalog keys = Some insts →
  map_Forall (λ _, P) catalog → Forall (λ p, P p.2) insts.
Proof.
  intros Hinst%instantiate_Some Hall.
  eapply Forall2_Forall_r; [done|]. apply Forall_forall.
  intros key _ [n c] [_ Hc]. simpl in *. by eapply Hall.
Qed.

(** No class of either catalog writes the key [gather_subset]. *)
Lemma iosxr_gather_subset_free :
  map_Forall (λ _ cls, "gather_subset" ∉ fact_keys cls) Iosxr.FACT_SUBSETS.
Proof. by_compute. Qed.

Lemma junos_gather_subset_free :
  map_Forall (λ _ cls, "gather_subset" ∉ fact_keys cls) Junos.FACT_SUBSETS.
Proof. by_compute. Qed.

Section iosxr_run.
Variable run_commands : list string → raised + list string.
Variable scrape : string → gmap string string → raised + (string → option value).

(** A run of the loop that ends normally leaves alone every key that no
    instance writes. *)
Lemma iosxr_run_instances_keeps key insts : ∀ facts results log log' facts',
  Forall (λ p, key ∉ fact_keys p.2) insts →
  Iosxr.run_instances run_commands scrape insts facts results log = (log', inr facts') →
  facts' !! key = facts !! key.
Proof.
  induction insts as [|[name inst] rest IH]; intros facts results log log' facts' Hkeys;
    simpl; [by intros [= _ <-]|].
  apply Forall_cons in Hkeys as [Hkey Hkeys]. simpl in Hkey.
  destruct (run_commands (commands inst)) as [e|responses]; [done|].
  unfold Iosxr.populate.
  destruct (scrape name _) as [e|scraped]; [done|].
  intros Hrun. rewrite (IH _ _ _ _ _ Hkeys Hrun).
  apply lookup_union_r. by apply facts_of_other.
Qed.


End iosxr_run.

Section junos_run.
Variable scrape : string → raised + (string → option value).

Lemma junos_run_instances_keeps key insts : ∀ facts log log' facts',
  Forall (λ p, key ∉ fact_keys p.2) insts →
  Junos.run_instances scrape insts facts log = (log', inr facts') →
  facts' !! key = facts !! key.
Proof.
  induction insts as [|[name inst] rest IH]; intros facts log log' facts' Hkeys;
    simpl; [by intros [= _ <-]|].
  apply Forall_cons in Hkeys as [Hkey Hkeys]. simpl in Hkey.
  unfold Junos.populate. destruct (scrape name) as [e|scraped]; [done|].
  intros Hrun. rewrite (IH _ _ _ _ Hkeys Hrun).
  apply lookup_union_r. by apply facts_of_other.
Qed.


End junos_run.

(** Every selected subset has its class: the catalogs have [default]. *)
Lemma instantiate_total catalog keys :
  (∀ key, key ∈ keys → is_Some (catalog !! key)) →
  is_Some (instantiate catalog keys).
Proof.
  intros Hkeys. apply mapM_is_Some, Forall_forall.
  intros key [cls Hcls]%Hkeys. simpl. rewrite Hcls. by eexists.
Qed.

(** With a device that answers and scraping that does not break, the
    run ends with the fact dictionary: the successful runs are all the
    runs that resolve and meet no failure. *)
Lemma iosxr_main_returns_facts order run_commands scrape from_json warnings
    tokens rs :
  (∀ s, order s ≡ₚ elements s) →
  resolve Iosxr.bad_subset Iosxr.VALID_SUBSETS tokens = inr rs →
  (∀ commands, ∃ responses, run_commands commands = inr responses) →
  (∀ name results, ∃ scraped, scrape name results = inr scraped) →
  ∃ log af,
    Iosxr.main order run_commands scrape from_json warnings tokens =
      (log, ExitFacts af warnings).
Proof.
  intros order_perm Hrs Hrun Hscrape. unfold Iosxr.main. rewrite Hrs.
  destruct (instantiate_total Iosxr.FACT_SUBSETS (order rs)) as [insts ->].
  { intros key Hkey. rewrite order_perm, elem_of_elements in Hkey.
    apply (SubsetsFacts.resolve_within _ _ _ _ Hrs) in Hkey.
    apply elem_of_dom. fold Iosxr.VALID_SUBSETS.
    assert ("default" ∈ Iosxr.VALID_SUBSETS) by by_compute. set_solver. }
  assert (∀ facts results log, ∃ log' facts',
    Iosxr.run_instances run_commands scrape insts facts results log =
      (log', inr facts')) as Hloop.
  { induction insts as [|[name inst] rest IH]; intros facts results log;
      simpl; [eauto|].
    destruct (Hrun (commands inst)) as [responses ->].
    unfold Iosxr.populate.
    destruct (Hscrape name (dict_zip (commands inst) responses)) as [scraped ->].
    apply IH. }
  destruct (Hloop {["gather_subset" := VList (VStr <$> order rs)]} None [])
    as (log & facts & ->).
  eauto.
Qed.

Lemma junos_main_returns_facts order scrape warnings tokens rs :
  (∀ s, order s ≡ₚ elements s) →
  resolve (Junos.bad_subset order) Junos.VALID_SUBSETS tokens = inr rs →
  (∀ name, ∃ scraped, scrape name = inr scraped) →
  ∃ log af,
    Junos.main order scrape warnings tokens = (log, ExitFacts af warnings).
Proof.
  intros order_perm Hrs Hscrape. unfold Junos.main. rewrite Hrs.
  destruct (instantiate_total Junos.FACT_SUBSETS (order rs)) as [insts ->].
  { intros key Hkey. rewrite order_perm, elem_of_elements in Hkey.
    apply (SubsetsFacts.resolve_within _ _ _ _ Hrs) in Hkey.
    apply elem_of_dom. fold Junos.VALID_SUBSETS.
    assert ("default" ∈ Junos.VALID_SUBSETS) by by_compute. set_solver. }
  assert (∀ facts log, ∃ log' facts',
    Junos.run_instances scrape insts facts log = (log', inr facts')) as Hloop.
  { induction insts as [|[name inst] rest IH]; intros facts log; simpl; [eauto|].
    unfold Junos.populate. destruct (Hscrape name) as [scraped ->]. apply IH. }
  destruct (Hloop {["gather_subset" := VList (VStr <$> order rs)]} [])
    as (log & facts & ->).
  eauto.
Qed.

(** The handler of [iosxr_facts] never returns the fact dictionary. *)
Lemma iosxr_handler_no_facts from_json e results af w :
  Iosxr.handler from_json e results ≠ ExitFacts af w.
Proof.
  unfold Iosxr.handler. destruct e as [what|msg]; [|done].
  destruct results as [results|]; [|done].
  by destruct (from_json results) as [[]|].
Qed.

(** C7. When [main] returns the fact dictionary, every key of it begins
    with [ansible_net_], and [ansible_net_gather_subset] is there and
    lists the names of the resolved run set, each once. *)
Theorem facts_are_namespaced order :
  (∀ s, order s ≡ₚ elements s) →
  (∀ run_commands scrape from_json warnings tokens log af w,
     Iosxr.main order run_commands scrape from_json warnings tokens =
       (log, ExitFacts af w) →
     well_reported (resolve Iosxr.bad_subset Iosxr.VALID_SUBSETS tokens) af) ∧
  (∀ scrape warnings tokens log af w,
     Junos.main order scrape warnings tokens = (log, ExitFacts af w) →
     well_reported
       (resolve (Junos.bad_subset order) Junos.VALID_SUBSETS tokens) af).
Proof.
  intros order_perm.
  assert (∀ rs (facts : gmap string value),
    facts !! "gather_subset" = Some (VList (VStr <$> order rs)) →
    well_reported (inr rs) (namespaced facts)) as Hreport.
  { intros rs facts Hgs. split; [apply namespaced_keys|].
    exists rs, (order rs). split_and!; [done| | |].
    - rewrite <- Hgs. apply (namespaced_lookup facts "gather_subset").
    - rewrite order_perm. apply NoDup_elements.
    - intros name. rewrite order_perm. apply elem_of_elements. }
  split.
  - intros run_commands scrape from_json warnings tokens log af w.
    unfold Iosxr.main.
    destruct (resolve _ _ tokens) as [msg|rs]; [done|].
    destruct (instantiate _ _) as [insts|] eqn:Hinst; [|done].
    destruct (Iosxr.run_instances _ _ _ _ _ _) as [log' [[e r]|facts]] eqn:Hrun.
    { intros [= _ H]. by apply iosxr_handler_no_facts in H. }
    intros [= _ <- _]. apply Hreport.
    erewrite iosxr_run_instances_keeps; [apply lookup_singleton_eq| |done].
    apply (instantiate_classes _ _ _ (λ cls, "gather_subset" ∉ fact_keys cls) Hinst).
    apply iosxr_gather_subset_free.
  - intros scrape warnings tokens log af w.
    unfold Junos.main.
    destruct (resolve _ _ tokens) as [msg|rs]; [done|].
    destruct (instantiate _ _) as [insts|] eqn:Hinst; [|done].
    destruct (Junos.run_instances _ _ _ _) as [log' [[what|msg]|facts]] eqn:Hrun;
      [done..|].
    intros [= _ <- _]. apply Hreport.
    erewrite junos_run_instances_keeps; [apply lookup_singleton_eq| |done].
    apply (instantiate_classes _ _ _ (λ cls, "gather_subset" ∉ fact_keys cls) Hinst).
    apply junos_gather_subset_free.
Qed.

(** A run that ends with the facts has a log, a dictionary and
    warnings. *)
Lemma exit_facts_inv (run : list string * outcome) :
  match run.2 with ExitFacts _ _ => True | _ => False end →
  ∃ log af w, run = (log, ExitFacts af w).
Proof. destruct run as [log [af w| | |]]; [eauto|done..]. Qed.

Lemma facts_are_namespaced_witness :
  ∃ log af w,
    Iosxr.main elements Samples.echo Samples.iosxr_scrape_ok
      Samples.from_json_refuses [] ["hardware"] = (log, ExitFacts af w) ∧
    well_reported
      (resolve Iosxr.bad_subset Iosxr.VALID_SUBSETS ["hardware"]) af.
Proof.
  destruct (exit_facts_inv
    (Iosxr.main elements Samples.echo Samples.iosxr_scrape_ok
       Samples.from_json_refuses [] ["hardware"]))
    as (log & af & w & H); [vm_compute; exact I|].
  exists log, af, w. split; [exact H|].
  exact (proj1 (facts_are_namespaced elements (λ s, reflexivity _)) _ _ _ _ _ _ _ _ H).
Defined.




(** C3, on [iosxr_facts]. The list [["bogus"]] ends the run before any
    command is sent, but the text given to [fail_json] is the fixed
    "Bad subset": it neither names [bogus] nor lists a single valid
    subset. *)
Theorem iosxr_bad_subset_is_anonymous order run_commands scrape from_json warnings :
  Iosxr.main order run_commands scrape from_json warnings ["bogus"] =
    ([], FailJson "Bad subset") ∧
  Py.contains "bogus" "Bad subset" = false ∧
  set_Forall (λ name, Py.contains name "Bad subset" = false) Iosxr.VALID_SUBSETS.
Proof.
  split_and!.
  - apply iosxr_main_unknown. apply Exists_cons_hd. split; by_compute.
  - reflexivity.
  - by_compute.
Qed.

(** C5, on [junos_facts]. Without a [gather_subset] argument the module
    resolves [["!config"; "!routes"; "!bgppeers"]]: [bgppeers] is no
    subset (the catalog has [bgp_peers]), so the run fails before
    anything is gathered. [iosxr_facts] resolves its default to every
    valid name but [config] and [routes]; so does [junos_facts] with the
    default its documentation gives, [bgp_peers] left out as well. *)
Theorem junos_default_gather_subset_fails order scrape warnings :
  Junos.main order scrape warnings (Junos.params_gather_subset None) =
    ([], FailJson (Junos.bad_subset order Junos.VALID_SUBSETS "bgppeers")) ∧
  Subsets.resolve Iosxr.bad_subset Iosxr.VALID_SUBSETS
    (Iosxr.params_gather_subset None) =
    inr (Iosxr.VALID_SUBSETS ∖ {["config"; "routes"]} ∪ {["default"]}) ∧
  Subsets.resolve (Junos.bad_subset order) Junos.VALID_SUBSETS
    Junos.documented_gather_subset =
    inr (Junos.VALID_SUBSETS ∖ {["config"; "bgp_peers"; "routes"]} ∪ {["default"]}).
Proof.
  split_and!.
  - unfold Junos.main, Junos.params_gather_subset, Junos.default_gather_subset.
    cbn [from_option id]. resolve_literal. reflexivity.
  - by_compute.
  - unfold Junos.documented_gather_subset. resolve_literal.
    f_equal; by_compute.
Qed.

End MainFacts.

(** ** [decode_os] *)

Module SysdescrFacts.
Import Sysdescr.

(** After the tokenizing loop, [tokens] maps the position of every field
    to its words and has no other key. *)
Lemma tokenize_lookup desc : ∀ i tokens j,
  tokenize desc i tokens !! j =
    if decide (i ≤ j < i + length desc) then Py.split <$> desc !! (j - i)
    else tokens !! j.
Proof.
  induction desc as [|field rest IH]; intros i tokens j; simpl.
  - by rewrite decide_False by lia.
  - rewrite IH. destruct (decide (j = i)) as [->|Hne].
    + rewrite decide_False by lia. rewrite decide_True by lia.
      rewrite lookup_insert_eq. by replace (i - i) with 0 by lia.
    + rewrite lookup_insert_ne by done.
      destruct (decide (S i ≤ j < S i + length rest)).
      * rewrite decide_True by lia.
        by replace (j - i) with (S (j - S i)) by lia.
      * by rewrite decide_False by lia.
Qed.

Lemma tokens_lookup desc j :
  tokenize desc 0 ∅ !! j = Py.split <$> desc !! j.
Proof.
  rewrite tokenize_lookup. replace (j - 0) with j by lia.
  case_decide as Hj; [done|].
  rewrite lookup_empty. symmetry. rewrite fmap_None.
  apply lookup_ge_None. lia.
Qed.

(** [tokens[i][j]] is word [j] of field [i]; a missing field is a
    [KeyError], a missing word an [IndexError]. *)
Lemma item_tokens sysdescr i j :
  item (tokenize (fields sysdescr) 0 ∅) i j =
    match fields sysdescr !! i with
    | None => inl KeyError
    | Some _ =>
        match words sysdescr i !! j with
        | None => inl IndexError
        | Some word => inr word
        end
    end.
Proof.
  unfold item, words. rewrite tokens_lookup.
  by destruct (fields sysdescr !! i).
Qed.

Lemma item_inr sysdescr i j word :
  item (tokenize (fields sysdescr) 0 ∅) i j = inr word ↔
  words sysdescr i !! j = Some word.
Proof.
  rewrite item_tokens. unfold words.
  destruct (fields sysdescr !! i) as [f|]; simpl.
  - destruct (Py.split f !! j); naive_solver.
  - naive_solver.
Qed.

(** The version loop looks at the first field that mentions the version
    and at no other. *)
Lemma find_version_from all desc : ∀ before os_version,
  all = before ++ desc →
  find_version desc (length before) (tokenize all 0 ∅) os_version =
    match head (filter (λ f, search_version f = true) desc) with
    | None => inr os_version
    | Some f =>
        match Py.split f !! 1 with
        | None => inl IndexError
        | Some word => inr word
        end
    end.
Proof.
  induction desc as [|field rest IH]; intros before os_version Hall; [done|].
  simpl. destruct (search_version field) eqn:Hsearch.
  - rewrite filter_cons_True by done. simpl.
    unfold item. rewrite tokens_lookup, Hall.
    rewrite lookup_app_r by lia. replace (_ - _) with 0 by lia. done.
  - rewrite filter_cons_False by (by rewrite Hsearch).
    rewrite <- (IH (before ++ [field])).
    + by rewrite length_app, Nat.add_1_r.
    + by rewrite <- app_assoc.
Qed.

Lemma find_version_fields sysdescr os_version :
  find_version (fields sysdescr) 0 (tokenize (fields sysdescr) 0 ∅) os_version =
    match version_field sysdescr with
    | None => inr os_version
    | Some f =>
        match Py.split f !! 1 with
        | None => inl IndexError
        | Some word => inr word
        end
    end.
Proof. by apply (find_version_from _ _ []). Qed.

(** A field with a word is not empty. *)
Lemma words_field_nonempty sysdescr i word :
  words sysdescr i !! 0 = Some word →
  ∃ f, fields sysdescr !! i = Some f ∧ f ≠ EmptyString.
Proof.
  unfold words. destruct (fields sysdescr !! i) as [f|]; [|done].
  intros H. exists f. split; [done|]. by intros ->.
Qed.

(** C9. When the first field has a word and that word, lowercased, is
    neither [cisco] nor [juniper], [decode_os] returns a dictionary with
    exactly the five keys, the vendor being that word as written and the
    four other values ["Unknown"]. *)
Theorem decode_os_other_vendor sysdescr vendor :
  words sysdescr 0 !! 0 = Some vendor →
  Py.lower vendor ≠ "cisco" → Py.lower vendor ≠ "juniper" →
  ∃ results,
    decode_os sysdescr = inr results ∧
    dom results =
      {["ansible_os_vendor"; "ansible_os_model"; "ansible_os_type";
        "ansible_os_version"; "ansible_os_buildtime"]} ∧
    results !! "ansible_os_vendor" = Some vendor ∧
    results !! "ansible_os_model" = Some "Unknown" ∧
    results !! "ansible_os_type" = Some "Unknown" ∧
    results !! "ansible_os_version" = Some "Unknown" ∧
    results !! "ansible_os_buildtime" = Some "Unknown".
Proof.
  intros Hvendor%item_inr Hcisco Hjuniper.
  eexists. split.
  - unfold decode_os. cbv zeta.
    change (Py.split_comma sysdescr) with (fields sysdescr).
    rewrite Hvendor. simpl.
    rewrite decide_False by done. simpl.
    rewrite decide_False by done. simpl. reflexivity.
  - split; [|by split_and!].
    rewrite !dom_insert_L, dom_empty_L. set_solver.
Qed.

Lemma decode_os_other_vendor_witness :
  ∃ results,
    decode_os "Linux  host 4.4.0, x86_64" = inr results ∧
    dom results =
      {["ansible_os_vendor"; "ansible_os_model"; "ansible_os_type";
        "ansible_os_version"; "ansible_os_buildtime"]} ∧
    results !! "ansible_os_vendor" = Some "Linux" ∧
    results !! "ansible_os_model" = Some "Unknown" ∧
    results !! "ansible_os_type" = Some "Unknown" ∧
    results !! "ansible_os_version" = Some "Unknown" ∧
    results !! "ansible_os_buildtime" = Some "Unknown".
Proof.
  apply (decode_os_other_vendor "Linux  host 4.4.0, x86_64" "Linux").
  - vm_compute. reflexivity.
  - vm_compute. discriminate.
  - vm_compute. discriminate.
Defined.

(** C10, as the code has it. [decode_os] returns only when the first
    field is not empty and has a word, and moreover: for [cisco] the
    first field has three words and the first field that mentions the
    version has two; for [juniper] there are four fields, and fields 1, 2
    and 3 have two, three and four words. It is not total: on
    ["Juniper Networks"] the missing field is a missing key of the
    dictionary [tokens], a [KeyError]; on the empty string the missing
    word is an [IndexError]. *)
Theorem decode_os_returns_only_when :
  (∀ sysdescr results, decode_os sysdescr = inr results → decodable sysdescr) ∧
  decode_os "Juniper Networks" = inl KeyError ∧
  decode_os EmptyString = inl IndexError.
Proof.
  split; [|split; by_compute].
  intros sysdescr results. unfold decode_os. cbv zeta.
  change (Py.split_comma sysdescr) with (fields sysdescr).
  destruct (item _ 0 0) as [e|vendor] eqn:Hvendor; [done|]. simpl.
  apply item_inr in Hvendor.
  destruct (words_field_nonempty _ _ _ Hvendor) as (first & Hfirst & Hne).
  intros Hret. exists first, vendor. split_and!; [done..| |].
  - intros Hcisco. rewrite decide_True in Hret by done.
    destruct (item _ 0 2) as [e|t02] eqn:H02; [done|].
    apply item_inr, lookup_lt_Some in H02. split; [lia|].
    intros f Hf. simpl in Hret.
    rewrite find_version_fields, Hf in Hret.
    destruct (decide _); simpl in Hret;
      destruct (item _ 0 1); simpl in Hret; try done;
      destruct (Py.split f !! 1) eqn:H1; try done;
      apply lookup_lt_Some in H1; lia.
  - intros Hjuniper.
    destruct (decide (Py.lower vendor = "cisco")) as [Hcisco|_];
      [by rewrite Hcisco in Hjuniper|].
    simpl in Hret. rewrite decide_True in Hret by done.
    destruct (item _ 2 1) as [e|t21] eqn:H21; [done|].
    destruct (item _ 1 1) as [e|t11] eqn:H11; [done|].
    destruct (item _ 2 2) as [e|t22] eqn:H22; [done|].
    destruct (item _ 3 2) as [e|t32] eqn:H32; [done|].
    destruct (item _ 3 3) as [e|t33] eqn:H33; [done|].
    assert (is_Some (fields sysdescr !! 3)) as [f3 Hf3%lookup_lt_Some].
    { rewrite item_tokens in H33. destruct (fields sysdescr !! 3); [eauto|done]. }
    apply item_inr, lookup_lt_Some in H11, H22, H33.
    split_and!; lia.
Qed.

(** The conditions are also enough: a decodable description is decoded. *)
Lemma decode_os_returns_when sysdescr :
  decodable sysdescr → ∃ results, decode_os sysdescr = inr results.
Proof.
  intros (first & vendor & _ & _ & Hvendor & Hcisco & Hjuniper).
  unfold decode_os. cbv zeta.
  change (Py.split_comma sysdescr) with (fields sysdescr).
  rewrite (proj2 (item_inr _ 0 0 _) Hvendor). simpl.
  destruct (decide (Py.lower vendor = "cisco")) as [Hc|Hc].
  - destruct (Hcisco Hc) as [Hlen Hversion].
    destruct (lookup_lt_is_Some_2 (words sysdescr 0) 1) as [t01 H01]; [lia|].
    destruct (lookup_lt_is_Some_2 (words sysdescr 0) 2) as [t02 H02]; [lia|].
    rewrite (proj2 (item_inr _ 0 2 _) H02), (proj2 (item_inr _ 0 1 _) H01).
    simpl. rewrite find_version_fields.
    destruct (version_field sysdescr) as [f|] eqn:Hf.
    + destruct (lookup_lt_is_Some_2 (Py.split f) 1) as [w Hw];
        [by apply Hversion|].
      rewrite Hw. destruct (decide _); simpl; eauto.
    + destruct (decide _); simpl; eauto.
  - simpl. destruct (decide (Py.lower vendor = "juniper")) as [Hj|Hj]; [|simpl; eauto].
    destruct (Hjuniper Hj) as (_ & H1 & H2 & H3).
    destruct (lookup_lt_is_Some_2 (words sysdescr 1) 1) as [t11 H11]; [lia|].
    destruct (lookup_lt_is_Some_2 (words sysdescr 2) 1) as [t21 H21]; [lia|].
    destruct (lookup_lt_is_Some_2 (words sysdescr 2) 2) as [t22 H22]; [lia|].
    destruct (lookup_lt_is_Some_2 (words sysdescr 3) 2) as [t32 H32]; [lia|].
    destruct (lookup_lt_is_Some_2 (words sysdescr 3) 3) as [t33 H33]; [lia|].
    rewrite (proj2 (item_inr _ 2 1 _) H21), (proj2 (item_inr _ 1 1 _) H11),
      (proj2 (item_inr _ 2 2 _) H22), (proj2 (item_inr _ 3 2 _) H32),
      (proj2 (item_inr _ 3 3 _) H33).
    simpl. eauto.
Qed.

(** A call that does not raise returns something. *)
Lemma returns_inv (call : error + gmap string string) :
  match call with inl _ => False | inr _ => True end →
  ∃ results, call = inr results.
Proof. destruct call; [done|eauto]. Qed.

Lemma decode_os_returns_only_when_witness :
  decodable "Cisco IOS Software, Version 12.2, version".
Proof.
  destruct (returns_inv (decode_os "Cisco IOS Software, Version 12.2, version"))
    as [results H]; [vm_compute; exact I|].
  exact (proj1 decode_os_returns_only_when _ _ H).
Defined.

(** C10, as the claim words it, fails twice. ["Juniper Networks"] ends in
    a [KeyError], not an [IndexError]. And a description whose third
    field mentions the version with a single word is decoded all the
    same, the loop having stopped at the second field. *)
Lemma decode_os_claimed_failure_differs :
  decode_os "Juniper Networks" = inl KeyError ∧
  decode_os "Juniper Networks" ≠ inl IndexError ∧
  decoded "Cisco IOS Software, Version 12.2, version" "ansible_os_version" =
    Some "12.2" ∧
  fields "Cisco IOS Software, Version 12.2, version" !! 2 = Some " version" ∧
  search_version " version" = true ∧
  length (Py.split " version") = 1.
Proof.
  split_and!.
  - by_compute.
  - by_compute.
  - by_compute.
  - by_compute.
  - reflexivity.
  - reflexivity.
Qed.

End SysdescrFacts.

(** ** [decode_os], branch by branch *)

Module SysdescrBranches.
Import Sysdescr SysdescrWords SysdescrFacts.

Lemma decode_os_unfold sysdescr :
  decode_os sysdescr =
    let tokens := tokenize (fields sysdescr) 0 ∅ in
    os_vendor ← item tokens 0 0;
    t00 ← item tokens 0 0;
    '(os_type, os_model, os_version, os_buildtime) ←
      (if decide (Py.lower t00 = "cisco") then
         t02 ← item tokens 0 2;
         os_type ←
           (if decide (Py.lower t02 = "software") then
              t01 ← item tokens 0 1; inr (Py.lower t01)
            else
              t01 ← item tokens 0 1;
              t02 ← item tokens 0 2;
              inr (Py.lower t01 +:+ "_" +:+ Py.lower t02));
         os_version ← find_version (fields sysdescr) 0 tokens "Unknown";
         inr (os_type, "Unknown", os_version, "Unknown")
       else
         t00 ← item tokens 0 0;
         if decide (Py.lower t00 = "juniper") then
           t21 ← item tokens 2 1;
           t11 ← item tokens 1 1;
           t22 ← item tokens 2 2;
           t32 ← item tokens 3 2;
           t33 ← item tokens 3 3;
           inr (Py.lower t21, t11, t22, t32 +:+ " " +:+ t33)
         else inr ("Unknown", "Unknown", "Unknown", "Unknown"));
    inr (<["ansible_os_buildtime" := os_buildtime]>
         (<["ansible_os_version" := os_version]>
          (<["ansible_os_type" := os_type]>
           (<["ansible_os_model" := os_model]>
            (<["ansible_os_vendor" := os_vendor]> ∅))))).
Proof. reflexivity. Qed.

(** Splitting always gives a first field. *)
Lemma split_by_nonempty p s : ∃ f rest, Py.split_by p s = f :: rest.
Proof.
  induction s as [|c s (f & rest & IH)]; simpl; [eauto|].
  destruct (p c); [eauto|]. rewrite IH. eauto.
Qed.

Lemma fields_first sysdescr : is_Some (fields sysdescr !! 0).
Proof.
  unfold fields, Py.split_comma.
  destruct (split_by_nonempty (λ c, Ascii.eqb c ","%char) sysdescr)
    as (f & rest & ->). by eexists.
Qed.

(** The result of a call that returned, key by key. *)
Lemma decoded_of sysdescr vendor os_type os_model os_version os_buildtime :
  decode_os sysdescr =
    inr (<["ansible_os_buildtime" := os_buildtime]>
         (<["ansible_os_version" := os_version]>
          (<["ansible_os_type" := os_type]>
           (<["ansible_os_model" := os_model]>
            (<["ansible_os_vendor" := vendor]> ∅))))) →
  decoded sysdescr "ansible_os_vendor" = Some vendor ∧
  decoded sysdescr "ansible_os_type" = Some os_type ∧
  decoded sysdescr "ansible_os_model" = Some os_model ∧
  decoded sysdescr "ansible_os_version" = Some os_version ∧
  decoded sysdescr "ansible_os_buildtime" = Some os_buildtime.
Proof. unfold decoded. intros ->. by split_and!. Qed.

(** Every call that returns went through the same five assignments. *)
Lemma decode_os_shape sysdescr results :
  decode_os sysdescr = inr results →
  ∃ vendor os_type os_model os_version os_buildtime,
    words sysdescr 0 !! 0 = Some vendor ∧
    results =
      <["ansible_os_buildtime" := os_buildtime]>
        (<["ansible_os_version" := os_version]>
         (<["ansible_os_type" := os_type]>
          (<["ansible_os_model" := os_model]>
           (<["ansible_os_vendor" := vendor]> ∅)))).
Proof.
  rewrite decode_os_unfold. cbv zeta.
  destruct (item _ 0 0) as [e|vendor] eqn:Hvendor; [done|]. simpl.
  apply item_inr in Hvendor.
  match goal with
  | |- (?branch ≫= _) = _ → _ => destruct branch as [e|[[[t m] v] b]]; [done|]
  end.
  simpl. intros [= <-]. by exists vendor, t, m, v, b.
Qed.

(** X20. A Cisco description: the type is read from the second and third
    words of the first field, the version from the first field that
    mentions it, and model and build time stay ["Unknown"]. *)
Theorem decode_os_cisco sysdescr vendor os_type os_version :
  words sysdescr 0 !! 0 = Some vendor → Py.lower vendor = "cisco" →
  cisco_type sysdescr = Some os_type →
  cisco_version sysdescr = Some os_version →
  decoded sysdescr "ansible_os_vendor" = Some vendor ∧
  decoded sysdescr "ansible_os_type" = Some os_type ∧
  decoded sysdescr "ansible_os_model" = Some "Unknown" ∧
  decoded sysdescr "ansible_os_version" = Some os_version ∧
  decoded sysdescr "ansible_os_buildtime" = Some "Unknown".
Proof.
  intros Hvendor%item_inr Hcisco Htype Hversion. apply decoded_of.
  unfold cisco_type in Htype.
  destruct (words sysdescr 0 !! 1) as [w1|] eqn:H1; [|done].
  destruct (words sysdescr 0 !! 2) as [w2|] eqn:H2; [|done].
  simpl in Htype. injection Htype as <-.
  apply item_inr in H1, H2.
  rewrite decode_os_unfold. cbv zeta. rewrite Hvendor. simpl.
  rewrite decide_True by done. rewrite H2. simpl.
  rewrite find_version_fields. unfold cisco_version in Hversion.
  destruct (decide (Py.lower w2 = "software")); rewrite H1; simpl;
    try rewrite H2; simpl;
    (destruct (version_field sysdescr) as [f|];
       [rewrite Hversion|injection Hversion as <-]); done.
Qed.

Lemma decode_os_cisco_witness :
  decoded "Cisco IOS Software, C3750 Software (C3750-IPSERVICESK9-M), Version 12.2(55)SE, RELEASE SOFTWARE (fc2)"
    "ansible_os_version" = Some "12.2(55)SE".
Proof.
  refine (proj1 (proj2 (proj2 (proj2 (decode_os_cisco
    "Cisco IOS Software, C3750 Software (C3750-IPSERVICESK9-M), Version 12.2(55)SE, RELEASE SOFTWARE (fc2)"
    "Cisco" "ios" "12.2(55)SE" _ _ _ _))))); vm_compute; reflexivity.
Defined.

(** X21. A Juniper description: model, type, version and build time are
    read at fixed word positions of the second, third and fourth field. *)
Theorem decode_os_juniper sysdescr vendor model type version day time :
  words sysdescr 0 !! 0 = Some vendor → Py.lower vendor = "juniper" →
  words sysdescr 1 !! 1 = Some model →
  words sysdescr 2 !! 1 = Some type →
  words sysdescr 2 !! 2 = Some version →
  words sysdescr 3 !! 2 = Some day →
  words sysdescr 3 !! 3 = Some time →
  decoded sysdescr "ansible_os_vendor" = Some vendor ∧
  decoded sysdescr "ansible_os_type" = Some (Py.lower type) ∧
  decoded sysdescr "ansible_os_model" = Some model ∧
  decoded sysdescr "ansible_os_version" = Some version ∧
  decoded sysdescr "ansible_os_buildtime" = Some (day +:+ " " +:+ time).
Proof.
  intros Hvendor%item_inr Hjuniper H11%item_inr H21%item_inr H22%item_inr
    H32%item_inr H33%item_inr.
  apply decoded_of. rewrite decode_os_unfold. cbv zeta. rewrite Hvendor. simpl.
  rewrite decide_False by (rewrite Hjuniper; discriminate). simpl.
  rewrite decide_True by done. rewrite H21, H11, H22, H32, H33. done.
Qed.

Lemma decode_os_juniper_witness :
  decoded "Juniper Networks, Inc. mx480 internet router, kernel JUNOS 14.2R7.5, Build date: 2016-10-06 10:47:07 UTC Copyright (c) 1996-2016 Juniper Networks, Inc."
    "ansible_os_buildtime" = Some "2016-10-06 10:47:07".
Proof.
  refine (proj2 (proj2 (proj2 (proj2 (decode_os_juniper
    "Juniper Networks, Inc. mx480 internet router, kernel JUNOS 14.2R7.5, Build date: 2016-10-06 10:47:07 UTC Copyright (c) 1996-2016 Juniper Networks, Inc."
    "Juniper" "mx480" "JUNOS" "14.2R7.5" "2016-10-06" "10:47:07" _ _ _ _ _ _ _)))));
    vm_compute; reflexivity.
Defined.

(** X22. Whatever the vendor, a result has exactly the five keys, and the
    vendor it reports is the first word of the description as written. *)
Theorem decode_os_result_shape sysdescr results :
  decode_os sysdescr = inr results →
  dom results =
    {["ansible_os_vendor"; "ansible_os_model"; "ansible_os_type";
      "ansible_os_version"; "ansible_os_buildtime"]} ∧
  results !! "ansible_os_vendor" = words sysdescr 0 !! 0.
Proof.
  intros (vendor & t & m & v & b & Hvendor & ->)%decode_os_shape. split.
  - rewrite !dom_insert_L, dom_empty_L. set_solver.
  - by rewrite Hvendor.
Qed.

Lemma decode_os_result_shape_witness :
  ∃ results,
    decode_os "HP ETHERNET MULTI-ENVIRONMENT,ROM none" = inr results ∧
    results !! "ansible_os_vendor" = Some "HP".
Proof.
  destruct (returns_inv (decode_os "HP ETHERNET MULTI-ENVIRONMENT,ROM none"))
    as [results H]; [vm_compute; exact I|].
  exists results. split; [exact H|].
  rewrite (proj2 (decode_os_result_shape _ _ H)). vm_compute. reflexivity.
Defined.

(** The version loop reads fields that exist: it can only miss a word. *)
Lemma find_version_no_KeyError sysdescr os_version :
  find_version (fields sysdescr) 0 (tokenize (fields sysdescr) 0 ∅) os_version ≠
    inl KeyError.
Proof.
  rewrite find_version_fields.
  destruct (version_field sysdescr) as [f|]; [|done].
  by destruct (Py.split f !! 1).
Qed.

(** X23. [decode_os] raises [KeyError] exactly on a Juniper description
    that ends before the field the Juniper branch is about to read:
    fewer than three fields, or three fields whose words suffice up to
    there. Cisco and other descriptions never raise it. *)
Theorem decode_os_KeyError sysdescr :
  decode_os sysdescr = inl KeyError ↔ juniper_short sysdescr.
Proof.
  rewrite decode_os_unfold. cbv zeta. split.
  - destruct (item _ 0 0) as [e|vendor] eqn:Hvendor.
    { rewrite item_tokens in Hvendor. destruct (fields_first sysdescr) as [f Hf].
      rewrite Hf in Hvendor.
      destruct (words sysdescr 0 !! 0); intros; simplify_eq/=. }
    apply item_inr in Hvendor. simpl.
    destruct (decide (Py.lower vendor = "cisco")) as [Hc|Hc].
    { destruct (item _ 0 2) as [e|t02] eqn:H02.
      { rewrite item_tokens in H02. destruct (fields_first sysdescr) as [f Hf].
        rewrite Hf in H02.
        destruct (words sysdescr 0 !! 2); intros; simplify_eq/=. }
      simpl. destruct (item _ 0 1) as [e|t01] eqn:H01.
      { rewrite item_tokens in H01. destruct (fields_first sysdescr) as [f Hf].
        rewrite Hf in H01.
        destruct (words sysdescr 0 !! 1); destruct (decide _);
          intros; simplify_eq/=. }
      pose proof (find_version_no_KeyError sysdescr "Unknown") as Hfind.
      destruct (find_version _ _ _ _) as [e|v]; destruct (decide _); simpl;
        try done; intros [= ->]; done. }
    simpl. destruct (decide (Py.lower vendor = "juniper")) as [Hj|Hj]; [|done].
    intros Hkey. exists vendor. split_and!; [done..|].
    rewrite !item_tokens in Hkey.
    destruct (fields sysdescr !! 2) as [f2|] eqn:Hf2;
      [|left; by apply lookup_ge_None in Hf2].
    destruct (words sysdescr 2 !! 1) as [t21|] eqn:H21; [|done]. simpl in Hkey.
    destruct (fields sysdescr !! 1) as [f1|] eqn:Hf1;
      [|apply lookup_ge_None in Hf1; apply lookup_lt_Some in Hf2; lia].
    destruct (words sysdescr 1 !! 1) as [t11|] eqn:H11; [|done]. simpl in Hkey.
    destruct (words sysdescr 2 !! 2) as [t22|] eqn:H22; [|done]. simpl in Hkey.
    destruct (fields sysdescr !! 3) as [f3|] eqn:Hf3.
    { destruct (words sysdescr 3 !! 2); [|done]. simpl in Hkey.
      by destruct (words sysdescr 3 !! 3). }
    right. apply lookup_ge_None in Hf3.
    apply lookup_lt_Some in Hf2, H22, H11. split_and!; lia.
  - intros (vendor & Hvendor & Hj & Hshort).
    rewrite (proj2 (item_inr _ 0 0 _) Hvendor). simpl.
    rewrite decide_False by (rewrite Hj; discriminate). simpl.
    rewrite decide_True by done. rewrite !item_tokens.
    destruct Hshort as [Hlen|(Hlen & H2 & H1)].
    + by rewrite (proj2 (lookup_ge_None (fields sysdescr) 2)) by lia.
    + destruct (lookup_lt_is_Some_2 (fields sysdescr) 2) as [f2 ->]; [lia|].
      destruct (lookup_lt_is_Some_2 (fields sysdescr) 1) as [f1 ->]; [lia|].
      destruct (lookup_lt_is_Some_2 (words sysdescr 2) 1) as [t21 ->]; [lia|].
      destruct (lookup_lt_is_Some_2 (words sysdescr 1) 1) as [t11 ->]; [lia|].
      destruct (lookup_lt_is_Some_2 (words sysdescr 2) 2) as [t22 ->]; [lia|].
      simpl. by rewrite (proj2 (lookup_ge_None (fields sysdescr) 3)) by lia.
Qed.

Lemma decode_os_KeyError_witness :
  decode_os "Juniper Networks, Inc. mx480, kernel JUNOS 14.2R7.5" = inl KeyError.
Proof.
  apply decode_os_KeyError. exists "Juniper". split_and!.
  - vm_compute. reflexivity.
  - vm_compute. reflexivity.
  - right. vm_compute. split_and!; [reflexivity|lia..].
Defined.

(** X24. The conditions under which [decode_os] can return are enough
    for it to return: a decodable description is decoded, whatever else
    it holds. *)
Theorem decode_os_decodable_returns sysdescr :
  decodable sysdescr → ∃ results, decode_os sysdescr = inr results.
Proof. apply decode_os_returns_when. Qed.

Lemma decode_os_decodable_returns_witness :
  ∃ results,
    decode_os "Juniper Networks, Inc. mx480 internet router, kernel JUNOS 14.2R7.5, Build date: 2016-10-06 10:47:07 UTC" =
      inr results.
Proof.
  apply decode_os_decodable_returns.
  exists "Juniper Networks", "Juniper". split_and!.
  - vm_compute. reflexivity.
  - discriminate.
  - vm_compute. reflexivity.
  - vm_compute. discriminate.
  - intros _. vm_compute. split_and!; lia.
Defined.

End SysdescrBranches.

(** ** The resolver, completely *)

Module ResolverMore.
Import Subsets SubsetsWords SubsetsFacts.

Section resolver_more.
Variable bad_subset : gset string → string → string.
Variable VALID_SUBSETS : gset string.

Abbreviation gather_loop := (gather_loop bad_subset VALID_SUBSETS).
Abbreviation resolve := (resolve bad_subset VALID_SUBSETS).
Abbreviation requested := (requested VALID_SUBSETS).
Abbreviation negated := (negated VALID_SUBSETS).
Abbreviation spec_runset := (spec_runset VALID_SUBSETS).
Abbreviation unknown_token := (unknown_token VALID_SUBSETS).
Abbreviation first_unknown := (first_unknown VALID_SUBSETS).

(** The loop either stops at the first unknown token or adds what every
    token asks for. *)
Lemma gather_loop_exact tokens : ∀ R E,
  gather_loop tokens R E =
    match first_unknown tokens with
    | Some t => inl (bad_subset VALID_SUBSETS (stripped t))
    | None => inr (R ∪ requested tokens, E ∪ negated tokens)
    end.
Proof.
  unfold SubsetsWords.first_unknown.
  induction tokens as [|t rest IH]; intros R E; simpl.
  { f_equal. f_equal; set_solver. }
  destruct (decide (unknown_token t)) as [Hun|Hok].
  - rewrite filter_cons_True by done. simpl.
    destruct Hun as [Hall Hin]. unfold stripped in *.
    destruct (Py.strip_bang t) as [name|] eqn:Hbang; simpl in *.
    + rewrite decide_False by (intros ->; discriminate).
      by rewrite !decide_False by done.
    + by rewrite !decide_False by done.
  - rewrite filter_cons_False by done.
    unfold Subsets.unknown_token, stripped in Hok.
    case_decide as Hall.
    { subst t. simpl. rewrite IH.
      destruct (head _); [done|]. f_equal. f_equal; set_solver. }
    destruct (Py.strip_bang t) as [name|] eqn:Hbang; simpl in Hok.
    + case_decide as Hnall.
      { rewrite IH. destruct (head _); [done|]. f_equal. f_equal; set_solver. }
      case_decide as Hin; [|exfalso; apply Hok; by split].
      rewrite IH. destruct (head _); [done|]. f_equal. f_equal; set_solver.
    + case_decide as Hin; [|exfalso; apply Hok; by split].
      rewrite IH. destruct (head _); [done|]. f_equal. f_equal; set_solver.
Qed.

Lemma resolve_exact tokens :
  resolve tokens =
    match first_unknown tokens with
    | Some t => inl (bad_subset VALID_SUBSETS (stripped t))
    | None => inr (spec_runset tokens)
    end.
Proof.
  unfold Subsets.resolve. rewrite gather_loop_exact.
  destruct (first_unknown tokens); [done|].
  unfold Subsets.spec_runset. rewrite !(left_id_L ∅ (∪)).
  case_decide as Hempty; [|done]. rewrite Hempty. by rewrite (left_id_L ∅ (∪)).
Qed.

(** X1. The resolver, completely: it fails exactly when some token names
    an unknown subset, with the text for the first such token; otherwise
    it returns [((I or validNames) − E) ∪ {default}]. *)
Theorem resolve_first_unknown_or_runset tokens :
  resolve tokens =
    match first_unknown tokens with
    | Some t => inl (bad_subset VALID_SUBSETS (stripped t))
    | None => inr (spec_runset tokens)
    end ∧
  (first_unknown tokens = None ↔ Forall (λ t, ¬ unknown_token t) tokens).
Proof.
  split; [apply resolve_exact|].
  unfold SubsetsWords.first_unknown. induction tokens as [|t rest IH]; [done|].
  destruct (decide (unknown_token t)).
  - rewrite filter_cons_True by done. simpl. split; [done|].
    by intros [? _]%Forall_cons.
  - rewrite filter_cons_False by done. rewrite IH, Forall_cons. tauto.
Qed.

(** What the two sets of the specification hold, token by token. *)
Lemma elem_of_requested name tokens :
  name ∈ requested tokens ↔
  ∃ t, t ∈ tokens ∧ Py.strip_bang t = None ∧
       if decide (t = "all") then name ∈ VALID_SUBSETS else name = t.
Proof.
  induction tokens as [|t rest IH]; simpl.
  { split; [set_solver|]. by intros (t & ?%elem_of_nil & _). }
  destruct (Py.strip_bang t) as [n|] eqn:Hbang.
  - rewrite IH. split.
    + intros (t' & ? & ?). exists t'. split; [set_solver|done].
    + intros (t' & [->|?]%elem_of_cons & Hb & ?); [congruence|eauto].
  - rewrite elem_of_union, IH. split.
    + intros [Hhere|(t' & ? & ?)].
      * exists t. split; [set_solver|]. split; [done|].
        case_decide; set_solver.
      * exists t'. split; [set_solver|done].
    + intros (t' & [->|?]%elem_of_cons & Hb & Hn); [|eauto].
      left. case_decide; set_solver.
Qed.

Lemma elem_of_negated name tokens :
  name ∈ negated tokens ↔
  ∃ t n, t ∈ tokens ∧ Py.strip_bang t = Some n ∧
         if decide (n = "all") then name ∈ VALID_SUBSETS else name = n.
Proof.
  induction tokens as [|t rest IH]; simpl.
  { split; [set_solver|]. by intros (t & n & ?%elem_of_nil & _). }
  destruct (Py.strip_bang t) as [n|] eqn:Hbang.
  - rewrite elem_of_union, IH. split.
    + intros [Hhere|(t' & n' & ? & ?)].
      * exists t, n. split; [set_solver|]. split; [done|].
        case_decide; set_solver.
      * exists t', n'. split; [set_solver|done].
    + intros (t' & n' & [->|?]%elem_of_cons & Hb & Hn); [|eauto 6].
      left. simplify_eq. case_decide; set_solver.
  - rewrite IH. split.
    + intros (t' & n' & ? & ?). exists t', n'. split; [set_solver|done].
    + intros (t' & n' & [->|?]%elem_of_cons & Hb & ?); [congruence|eauto].
Qed.

(** X2. Only the tokens that occur matter, not their order or how often
    they occur: two token lists with the same members resolve to the same
    run set. *)
Theorem resolve_order_insensitive tokens1 tokens2 rs :
  (∀ t, t ∈ tokens1 ↔ t ∈ tokens2) →
  resolve tokens1 = inr rs → resolve tokens2 = inr rs.
Proof.
  intros Hsame. rewrite !resolve_exact.
  destruct (first_unknown tokens1) as [t1|] eqn:H1; [done|].
  assert (first_unknown tokens2 = None) as ->.
  { unfold SubsetsWords.first_unknown in *.
    destruct (filter _ tokens2) as [|t2 ?] eqn:H2; [done|].
    assert (t2 ∈ filter unknown_token tokens2) as [Hun Hin]%list_elem_of_filter
      by (rewrite H2; set_solver).
    apply Hsame in Hin.
    assert (t2 ∈ filter unknown_token tokens1) as Hin1
      by by apply list_elem_of_filter.
    destruct (filter _ tokens1); [by apply elem_of_nil in Hin1|done]. }
  intros [= <-]. f_equal. unfold Subsets.spec_runset.
  assert (requested tokens1 = requested tokens2) as ->.
  { apply set_eq. intros name. rewrite !elem_of_requested.
    by setoid_rewrite Hsame. }
  assert (negated tokens1 = negated tokens2) as ->; [|done].
  apply set_eq. intros name. rewrite !elem_of_negated.
  by setoid_rewrite Hsame.
Qed.

(** X3. A list with [!all] selects the default subset and nothing else,
    whatever else it holds. *)
Theorem resolve_not_all_leaves_default tokens rs :
  "!all" ∈ tokens → resolve tokens = inr rs → rs = {["default"]}.
Proof.
  intros Hin Hrs. pose proof (resolve_requested_valid _ _ _ _ Hrs) as Hreq.
  apply resolve_sound in Hrs as ->. unfold Subsets.spec_runset.
  assert (VALID_SUBSETS ⊆ negated tokens) as Hneg.
  { intros name Hname. apply elem_of_negated. by exists "!all", "all". }
  case_decide; set_solver.
Qed.

End resolver_more.

Lemma resolve_order_insensitive_witness :
  Subsets.resolve Iosxr.bad_subset Iosxr.VALID_SUBSETS
    ["bgp"; "!config"; "hardware"; "bgp"] = inr {["hardware"; "bgp"; "default"]}.
Proof.
  apply (resolve_order_insensitive Iosxr.bad_subset Iosxr.VALID_SUBSETS
           ["hardware"; "!config"; "bgp"]).
  - intros t. rewrite !elem_of_cons, !elem_of_nil. tauto.
  - by_compute.
Defined.

(** A resolution that does not fail resolves to something. *)
Lemma resolved_inv (resolved : string + gset string) :
  match resolved with inl _ => False | inr _ => True end →
  ∃ rs, resolved = inr rs.
Proof. destruct resolved; [done|eauto]. Qed.

Lemma resolve_not_all_leaves_default_witness :
  ∃ rs,
    Subsets.resolve Iosxr.bad_subset Iosxr.VALID_SUBSETS
      ["all"; "hardware"; "!all"] = inr rs ∧
    rs = {["default"]}.
Proof.
  destruct (resolved_inv (Subsets.resolve Iosxr.bad_subset Iosxr.VALID_SUBSETS
    ["all"; "hardware"; "!all"])) as [rs H]; [vm_compute; exact I|].
  exists rs. split; [exact H|].
  apply (resolve_not_all_leaves_default Iosxr.bad_subset Iosxr.VALID_SUBSETS
           ["all"; "hardware"; "!all"]); [by_compute|exact H].
Defined.

End ResolverMore.

(** ** What the two [main] functions send and return *)

Module MainMore.
Import Facts Subsets SubsetsWords MainFacts.

(** *** [dict(zip(commands, responses))] *)

Lemma zip_fst_elem (cmds resps : list string) c :
  c ∈ (zip cmds resps).*1 → c ∈ cmds.
Proof.
  revert resps. induction cmds as [|x cmds IH]; intros [|r resps]; simpl;
    try by intros ?%elem_of_nil.
  intros [->|?]%elem_of_cons; [left|right; eauto].
Qed.

Lemma zip_fst_NoDup (cmds resps : list string) :
  NoDup cmds → NoDup (zip cmds resps).*1.
Proof.
  intros Hnd. revert resps.
  induction Hnd as [|x cmds Hx Hnd IH]; intros [|r resps]; simpl;
    try apply NoDup_nil_2.
  apply NoDup_cons_2; [|apply IH]. intros ?%zip_fst_elem. done.
Qed.

Lemma dict_zip_lookup (cmds resps : list string) i c :
  NoDup cmds → cmds !! i = Some c →
  dict_zip cmds resps !! c = resps !! i.
Proof.
  intros Hnd Hc. apply option_eq. intros r. unfold dict_zip.
  rewrite <- elem_of_list_to_map
    by (rewrite fmap_reverse, reverse_Permutation; by apply zip_fst_NoDup).
  rewrite elem_of_reverse, list_elem_of_lookup. split.
  - intros (j & Hj). apply lookup_zip_with_Some in Hj as (c' & r' & [= <- <-] & Hcj & Hrj).
    by rewrite (NoDup_lookup _ _ _ _ Hnd Hc Hcj).
  - intros Hr. exists i. apply lookup_zip_with_Some. eauto.
Qed.

(** The commands of every class are pairwise different. *)
Lemma iosxr_commands_NoDup :
  map_Forall (λ _ cls, NoDup (commands cls)) Iosxr.FACT_SUBSETS.
Proof. by_compute. Qed.

(** X7. In [iosxr_facts] every command of a class finds, in
    [results], the response the device gave at the same position, and
    nothing when the device gave fewer responses than commands. *)
Theorem iosxr_results_by_position name cls i c responses :
  Iosxr.FACT_SUBSETS !! name = Some cls →
  commands cls !! i = Some c →
  dict_zip (commands cls) responses !! c = responses !! i.
Proof.
  intros Hcls Hc. apply dict_zip_lookup; [|done].
  by apply (iosxr_commands_NoDup _ _ Hcls).
Qed.

Lemma iosxr_results_by_position_witness :
  dict_zip (commands Iosxr.Default) ["version text"; "dsc text"] !! "admin show dsc" =
    Some "dsc text".
Proof.
  apply (iosxr_results_by_position "default" Iosxr.Default 1
           "admin show dsc" ["version text"; "dsc text"]).
  - vm_compute. reflexivity.
  - reflexivity.
Defined.

(** *** What is sent *)

Section iosxr_log.
Variable run_commands : list string → raised + list string.
Variable scrape : string → gmap string string → raised + (string → option value).


End iosxr_log.




Section junos_log.
Variable scrape : string → raised + (string → option value).


End junos_log.

Lemma instantiate_names catalog keys insts :
  instantiate catalog keys = Some insts → insts.*1 = keys.
Proof.
  intros Hinst%instantiate_Some.
  induction Hinst as [|key [n c] keys insts [Hn _] _ IH]; [done|].
  rewrite fmap_cons. simpl in *. by rewrite Hn, IH.
Qed.



(** *** What is returned *)

Lemma facts_of_lookup keys scraped key :
  facts_of keys scraped !! key =
    if decide (key ∈ keys) then scraped key else None.
Proof.
  unfold facts_of. induction keys as [|k keys IH]; [done|].
  csimpl. destruct (scraped k) as [v|] eqn:Hk; csimpl.
  - destruct (decide (k = key)) as [->|Hne].
    + rewrite lookup_insert_eq. rewrite decide_True by set_solver. done.
    + rewrite lookup_insert_ne by done. rewrite IH.
      destruct (decide (key ∈ keys)).
      * by rewrite decide_True by set_solver.
      * by rewrite decide_False by set_solver.
  - rewrite IH. destruct (decide (key ∈ keys)).
    + by rewrite decide_True by set_solver.
    + destruct (decide (key ∈ k :: keys)) as [Hin|]; [|done].
      apply elem_of_cons in Hin as [->|]; done.
Qed.

Lemma iosxr_keys_apart : keys_apart Iosxr.FACT_SUBSETS.
Proof. by_compute. Qed.

Lemma junos_keys_apart : keys_apart Junos.FACT_SUBSETS.
Proof. by_compute. Qed.

Lemma keys_apart_elim catalog n1 c1 n2 c2 key :
  keys_apart catalog → catalog !! n1 = Some c1 → catalog !! n2 = Some c2 →
  n1 ≠ n2 → key ∈ fact_keys c1 → key ∉ fact_keys c2.
Proof.
  intros Hap H1 H2 Hne Hkey.
  destruct (Hap _ _ H1 _ _ H2) as [?|Hall]; [done|].
  rewrite Forall_forall in Hall. by apply Hall.
Qed.

Section iosxr_returned.
Variable run_commands : list string → raised + list string.
Variable scrape : string → gmap string string → raised + (string → option value).

Lemma iosxr_run_instances_keys insts : ∀ facts results log log' facts' key,
  Iosxr.run_instances run_commands scrape insts facts results log = (log', inr facts') →
  is_Some (facts' !! key) →
  is_Some (facts !! key) ∨ ∃ p, p ∈ insts ∧ key ∈ fact_keys p.2.
Proof.
  induction insts as [|[name inst] rest IH]; intros facts results log log' facts' key;
    simpl; [intros [= _ <-]; by left|].
  destruct (run_commands (commands inst)) as [e|responses]; [done|].
  unfold Iosxr.populate. destruct (scrape name _) as [e|scraped]; [done|].
  intros Hrun Hsome.
  destruct (IH _ _ _ _ _ _ Hrun Hsome) as [Hhere|(p & ? & ?)].
  - rewrite lookup_union, facts_of_lookup in Hhere.
    destruct (decide (key ∈ fact_keys inst)).
    + right. exists (name, inst). split; [left|done].
    + left. by rewrite (left_id_L None _) in Hhere.
  - right. exists p. split; [by right|done].
Qed.

Lemma iosxr_run_instances_value insts : ∀ facts results log log' facts' name cls key,
  Iosxr.run_instances run_commands scrape insts facts results log = (log', inr facts') →
  NoDup insts.*1 → (name, cls) ∈ insts → key ∈ fact_keys cls →
  (∀ p, p ∈ insts → p.1 ≠ name → key ∉ fact_keys p.2) →
  facts !! key = None →
  ∃ responses scraped,
    run_commands (commands cls) = inr responses ∧
    scrape name (dict_zip (commands cls) responses) = inr scraped ∧
    facts' !! key = scraped key.
Proof.
  induction insts as [|[n inst] rest IH];
    intros facts results log log' facts' name cls key; simpl;
    [by intros _ _ ?%elem_of_nil|].
  destruct (run_commands (commands inst)) as [e|responses] eqn:Hrun; [done|].
  unfold Iosxr.populate.
  destruct (scrape n _) as [e|scraped] eqn:Hscrape; [done|].
  intros Hloop [Hn Hnd]%NoDup_cons Hin Hkey Hothers Hnone.
  apply elem_of_cons in Hin as [[= -> ->]|Hin].
  - exists responses, scraped. split_and!; [done..|].
    erewrite iosxr_run_instances_keeps; [|apply Forall_forall|exact Hloop].
    + rewrite lookup_union, facts_of_lookup, decide_True, Hnone by done.
      by rewrite (right_id_L None _).
    + intros p Hp. apply Hothers; [by right|].
      intros Heq. apply Hn. rewrite <- Heq. by apply list_elem_of_fmap_2.
  - apply (IH _ _ _ _ _ _ _ _ Hloop Hnd Hin Hkey).
    + intros p Hp. apply Hothers. by right.
    + rewrite lookup_union, facts_of_lookup.
      rewrite decide_False, Hnone; [done|].
      apply (Hothers (n, inst)); [left|]. simpl. intros ->. apply Hn.
      by apply (list_elem_of_fmap_2 fst _ (name, cls)).
Qed.

End iosxr_returned.

Section junos_returned.
Variable scrape : string → raised + (string → option value).

Lemma junos_run_instances_keys insts : ∀ facts log log' facts' key,
  Junos.run_instances scrape insts facts log = (log', inr facts') →
  is_Some (facts' !! key) →
  is_Some (facts !! key) ∨ ∃ p, p ∈ insts ∧ key ∈ fact_keys p.2.
Proof.
  induction insts as [|[name inst] rest IH]; intros facts log log' facts' key;
    simpl; [intros [= _ <-]; by left|].
  unfold Junos.populate. destruct (scrape name) as [e|scraped]; [done|].
  intros Hrun Hsome.
  destruct (IH _ _ _ _ _ Hrun Hsome) as [Hhere|(p & ? & ?)].
  - rewrite lookup_union, facts_of_lookup in Hhere.
    destruct (decide (key ∈ fact_keys inst)).
    + right. exists (name, inst). split; [left|done].
    + left. by rewrite (left_id_L None _) in Hhere.
  - right. exists p. split; [by right|done].
Qed.

Lemma junos_run_instances_value insts : ∀ facts log log' facts' name cls key,
  Junos.run_instances scrape insts facts log = (log', inr facts') →
  NoDup insts.*1 → (name, cls) ∈ insts → key ∈ fact_keys cls →
  (∀ p, p ∈ insts → p.1 ≠ name → key ∉ fact_keys p.2) →
  facts !! key = None →
  ∃ scraped, scrape name = inr scraped ∧ facts' !! key = scraped key.
Proof.
  induction insts as [|[n inst] rest IH];
    intros facts log log' facts' name cls key; simpl;
    [by intros _ _ ?%elem_of_nil|].
  unfold Junos.populate.
  destruct (scrape n) as [e|scraped] eqn:Hscrape; [done|].
  intros Hloop [Hn Hnd]%NoDup_cons Hin Hkey Hothers Hnone.
  apply elem_of_cons in Hin as [[= -> ->]|Hin].
  - exists scraped. split; [done|].
    erewrite junos_run_instances_keeps; [|apply Forall_forall|exact Hloop].
    + rewrite lookup_union, facts_of_lookup, decide_True, Hnone by done.
      by rewrite (right_id_L None _).
    + intros p Hp. apply Hothers; [by right|].
      intros Heq. apply Hn. rewrite <- Heq. by apply list_elem_of_fmap_2.
  - apply (IH _ _ _ _ _ _ _ Hloop Hnd Hin Hkey).
    + intros p Hp. apply Hothers. by right.
    + rewrite lookup_union, facts_of_lookup.
      rewrite decide_False, Hnone; [done|].
      apply (Hothers (n, inst)); [left|]. simpl. intros ->. apply Hn.
      by apply (list_elem_of_fmap_2 fst _ (name, cls)).
Qed.

End junos_returned.

Lemma instantiate_elem_inv catalog keys insts p :
  instantiate catalog keys = Some insts → p ∈ insts →
  p.1 ∈ keys ∧ catalog !! p.1 = Some p.2.
Proof.
  intros Hinst%instantiate_Some [i Hi]%list_elem_of_lookup_1.
  destruct (Forall2_lookup_r _ _ _ _ _ Hinst Hi) as (key & Hkey & <- & Hcls).
  split; [|done]. apply list_elem_of_lookup. eauto.
Qed.

Lemma namespaced_is_Some (facts : gmap string value) key :
  is_Some (namespaced facts !! key) →
  ∃ k, key = "ansible_net_" +:+ k ∧ is_Some (facts !! k).
Proof.
  rewrite namespaced_kmap, lookup_kmap_is_Some by apply PyFacts.append_inj.
  done.
Qed.

Lemma gather_subset_only (l : value) k :
  is_Some (({["gather_subset" := l]} : gmap string value) !! k) →
  "ansible_net_" +:+ k = "ansible_net_gather_subset".
Proof.
  destruct (decide (k = "gather_subset")) as [->|Hne]; [done|].
  rewrite lookup_singleton_ne by done. by intros [? ?].
Qed.

(** X10. Besides [ansible_net_gather_subset], a returned dictionary holds
    only keys that a selected subset writes: no fact of a subset outside
    the run set is returned. *)
Theorem returned_keys_selected order :
  (∀ s, order s ≡ₚ elements s) →
  (∀ run_commands scrape from_json warnings tokens rs log af w key,
     resolve Iosxr.bad_subset Iosxr.VALID_SUBSETS tokens = inr rs →
     Iosxr.main order run_commands scrape from_json warnings tokens =
       (log, ExitFacts af w) →
     is_Some (af !! key) →
     key = "ansible_net_gather_subset" ∨
     key_of_selected Iosxr.FACT_SUBSETS rs key) ∧
  (∀ scrape warnings tokens rs log af w key,
     resolve (Junos.bad_subset order) Junos.VALID_SUBSETS tokens = inr rs →
     Junos.main order scrape warnings tokens = (log, ExitFacts af w) →
     is_Some (af !! key) →
     key = "ansible_net_gather_subset" ∨
     key_of_selected Junos.FACT_SUBSETS rs key).
Proof.
  intros order_perm.
  assert (∀ catalog rs insts p k,
    instantiate catalog (order rs) = Some insts → p ∈ insts →
    k ∈ fact_keys p.2 → key_of_selected catalog rs ("ansible_net_" +:+ k))
    as Hsel.
  { intros catalog rs insts [name cls] k Hinst Hp Hk.
    destruct (instantiate_elem_inv _ _ _ _ Hinst Hp) as [Hname Hcls].
    exists name, cls, k. split_and!; [|done..].
    by rewrite order_perm, elem_of_elements in Hname. }
  split.
  - intros run_commands scrape from_json warnings tokens rs log af w key Hrs.
    unfold Iosxr.main. rewrite Hrs.
    destruct (instantiate _ _) as [insts|] eqn:Hinst; [|done].
    destruct (Iosxr.run_instances _ _ _ _ _ _) as [log' [[e r]|facts]] eqn:Hrun.
    { intros [= _ H]. by apply iosxr_handler_no_facts in H. }
    intros [= _ <- _] (k & -> & Hk)%namespaced_is_Some.
    destruct (iosxr_run_instances_keys _ _ _ _ _ _ _ _ _ Hrun Hk)
      as [Hgs|(p & Hp & Hkp)].
    + left. by eapply gather_subset_only.
    + right. by eapply Hsel.
  - intros scrape warnings tokens rs log af w key Hrs.
    unfold Junos.main. rewrite Hrs.
    destruct (instantiate _ _) as [insts|] eqn:Hinst; [|done].
    destruct (Junos.run_instances _ _ _ _) as [log' [[what|msg]|facts]] eqn:Hrun;
      [done..|].
    intros [= _ <- _] (k & -> & Hk)%namespaced_is_Some.
    destruct (junos_run_instances_keys _ _ _ _ _ _ _ Hrun Hk)
      as [Hgs|(p & Hp & Hkp)].
    + left. by eapply gather_subset_only.
    + right. by eapply Hsel.
Qed.

(** X11. What [iosxr_facts] returns under the tagged form of a key is what
    the class of that key scraped from the responses to its own commands:
    no other selected subset overwrites it, whatever the order of the
    run. *)
Theorem iosxr_fact_returned order run_commands scrape from_json warnings
    tokens rs log af w name cls key :
  (∀ s, order s ≡ₚ elements s) →
  resolve Iosxr.bad_subset Iosxr.VALID_SUBSETS tokens = inr rs →
  Iosxr.main order run_commands scrape from_json warnings tokens =
    (log, ExitFacts af w) →
  name ∈ rs → Iosxr.FACT_SUBSETS !! name = Some cls → key ∈ fact_keys cls →
  ∃ responses scraped,
    run_commands (commands cls) = inr responses ∧
    scrape name (dict_zip (commands cls) responses) = inr scraped ∧
    af !! ("ansible_net_" +:+ key) = scraped key.
Proof.
  intros order_perm Hrs. unfold Iosxr.main. rewrite Hrs.
  destruct (instantiate _ _) as [insts|] eqn:Hinst; [|done].
  destruct (Iosxr.run_instances _ _ _ _ _ _) as [log' [[e r]|facts]] eqn:Hrun.
  { intros [= _ H]. by apply iosxr_handler_no_facts in H. }
  intros [= _ <- _] Hname Hcls Hkey.
  destruct (iosxr_run_instances_value _ _ _ _ _ _ _ _ name cls key Hrun)
    as (responses & scraped & ? & ? & Hval).
  - rewrite (instantiate_names _ _ _ Hinst), order_perm. apply NoDup_elements.
  - eapply instantiate_elem; [done| |done].
    rewrite order_perm. by apply elem_of_elements.
  - done.
  - intros p Hp Hne.
    destruct (instantiate_elem_inv _ _ _ _ Hinst Hp) as [_ Hpcls].
    eapply (keys_apart_elim _ name cls); eauto using iosxr_keys_apart.
  - apply lookup_singleton_ne. intros <-.
    by apply (iosxr_gather_subset_free _ _ Hcls).
  - exists responses, scraped. split_and!; [done..|].
    by rewrite namespaced_lookup.
Qed.

(** X12. The same for [junos_facts]: the value returned under the tagged
    form of a key is the one the class of that key scraped. *)
Theorem junos_fact_returned order scrape warnings tokens rs log af w
    name cls key :
  (∀ s, order s ≡ₚ elements s) →
  resolve (Junos.bad_subset order) Junos.VALID_SUBSETS tokens = inr rs →
  Junos.main order scrape warnings tokens = (log, ExitFacts af w) →
  name ∈ rs → Junos.FACT_SUBSETS !! name = Some cls → key ∈ fact_keys cls →
  ∃ scraped,
    scrape name = inr scraped ∧
    af !! ("ansible_net_" +:+ key) = scraped key.
Proof.
  intros order_perm Hrs. unfold Junos.main. rewrite Hrs.
  destruct (instantiate _ _) as [insts|] eqn:Hinst; [|done].
  destruct (Junos.run_instances _ _ _ _) as [log' [[what|msg]|facts]] eqn:Hrun;
    [done..|].
  intros [= _ <- _] Hname Hcls Hkey.
  destruct (junos_run_instances_value _ _ _ _ _ _ name cls key Hrun)
    as (scraped & ? & Hval).
  - rewrite (instantiate_names _ _ _ Hinst), order_perm. apply NoDup_elements.
  - eapply instantiate_elem; [done| |done].
    rewrite order_perm. by apply elem_of_elements.
  - done.
  - intros p Hp Hne.
    destruct (instantiate_elem_inv _ _ _ _ Hinst Hp) as [_ Hpcls].
    eapply (keys_apart_elim _ name cls); eauto using junos_keys_apart.
  - apply lookup_singleton_ne. intros <-.
    by apply (junos_gather_subset_free _ _ Hcls).
  - exists scraped. split; [done|]. by rewrite namespaced_lookup.
Qed.

Lemma returned_keys_selected_witness :
  ∃ log af w,
    Iosxr.main elements Samples.echo Samples.iosxr_scrape_ok
      Samples.from_json_refuses [] ["hardware"] = (log, ExitFacts af w) ∧
    ∀ key, is_Some (af !! key) →
      key = "ansible_net_gather_subset" ∨
      key_of_selected Iosxr.FACT_SUBSETS {["hardware"; "default"]} key.
Proof.
  destruct (exit_facts_inv
    (Iosxr.main elements Samples.echo Samples.iosxr_scrape_ok
       Samples.from_json_refuses [] ["hardware"]))
    as (log & af & w & H); [vm_compute; exact I|].
  exists log, af, w. split; [exact H|]. intros key.
  refine (proj1 (returned_keys_selected elements (λ s, reflexivity _))
            _ _ _ _ ["hardware"] _ _ _ _ key _ H).
  by_compute.
Defined.

Lemma iosxr_fact_returned_witness :
  ∃ log af w,
    Iosxr.main elements Samples.echo Samples.iosxr_scrape_ok
      Samples.from_json_refuses [] ["hardware"] = (log, ExitFacts af w) ∧
    ∃ responses scraped,
      Samples.echo (commands Iosxr.Hardware) = inr responses ∧
      Samples.iosxr_scrape_ok "hardware"
        (dict_zip (commands Iosxr.Hardware) responses) = inr scraped ∧
      af !! ("ansible_net_" +:+ "memfree_mb") = scraped "memfree_mb".
Proof.
  destruct (exit_facts_inv
    (Iosxr.main elements Samples.echo Samples.iosxr_scrape_ok
       Samples.from_json_refuses [] ["hardware"]))
    as (log & af & w & H); [vm_compute; exact I|].
  exists log, af, w. split; [exact H|].
  refine (iosxr_fact_returned elements _ _ _ _ ["hardware"]
            {["hardware"; "default"]} _ _ _ "hardware" Iosxr.Hardware
            "memfree_mb" (λ s, reflexivity _) _ H _ _ _).
  - by_compute.
  - by_compute.
  - vm_compute. reflexivity.
  - by_compute.
Defined.

Lemma junos_fact_returned_witness :
  ∃ log af w,
    Junos.main elements Samples.junos_scrape_ok [] ["hardware"] =
      (log, ExitFacts af w) ∧
    ∃ scraped,
      Samples.junos_scrape_ok "default" = inr scraped ∧
      af !! ("ansible_net_" +:+ "serialnum") = scraped "serialnum".
Proof.
  destruct (exit_facts_inv
    (Junos.main elements Samples.junos_scrape_ok [] ["hardware"]))
    as (log & af & w & H); [vm_compute; exact I|].
  exists log, af, w. split; [exact H|].
  refine (junos_fact_returned elements _ _ ["hardware"]
            {["hardware"; "default"]} _ _ _ "default" Junos.Default
            "serialnum" (λ s, reflexivity _) _ H _ _ _).
  - by_compute.
  - by_compute.
  - vm_compute. reflexivity.
  - by_compute.
Defined.

(** *** Runs that fail at once, runs that return *)

(** X4. [junos_facts] ends at once on a token whose name is unknown: no
    subset has talked to the device, and the text handed to [fail_json]
    names the unknown subset and lists every valid one. *)
Theorem junos_unknown_subset_rejected order scrape warnings tokens :
  (∀ s, order s ≡ₚ elements s) →
  Exists (unknown_token Junos.VALID_SUBSETS) tokens →
  ∃ t msg,
    t ∈ tokens ∧ unknown_token Junos.VALID_SUBSETS t ∧
    Junos.main order scrape warnings tokens = ([], FailJson msg) ∧
    Py.contains (stripped t) msg = true ∧
    ∀ name, name ∈ Junos.VALID_SUBSETS → Py.contains name msg = true.
Proof. intros order_perm. by apply junos_main_unknown. Qed.

(** X5. On a device that answers every command, with scraping that does
    not break, [iosxr_facts] returns the facts for every request that
    resolves: the catalog has a class for every selected subset, and
    nothing else can stop the run. *)
Theorem iosxr_run_returns_facts order run_commands scrape from_json warnings
    tokens rs :
  (∀ s, order s ≡ₚ elements s) →
  resolve Iosxr.bad_subset Iosxr.VALID_SUBSETS tokens = inr rs →
  (∀ commands, ∃ responses, run_commands commands = inr responses) →
  (∀ name results, ∃ scraped, scrape name results = inr scraped) →
  ∃ log af,
    Iosxr.main order run_commands scrape from_json warnings tokens =
      (log, ExitFacts af warnings).
Proof. apply iosxr_main_returns_facts. Qed.

(** X6. The same for [junos_facts]: when no [populate] breaks, every
    request that resolves ends with the facts returned. *)
Theorem junos_run_returns_facts order scrape warnings tokens rs :
  (∀ s, order s ≡ₚ elements s) →
  resolve (Junos.bad_subset order) Junos.VALID_SUBSETS tokens = inr rs →
  (∀ name, ∃ scraped, scrape name = inr scraped) →
  ∃ log af,
    Junos.main order scrape warnings tokens = (log, ExitFacts af warnings).
Proof. apply junos_main_returns_facts. Qed.

Lemma junos_unknown_subset_rejected_witness :
  ∃ t msg,
    t ∈ ["hardware"; "!bogus"] ∧ unknown_token Junos.VALID_SUBSETS t ∧
    Junos.main elements Samples.junos_scrape_ok [] ["hardware"; "!bogus"] =
      ([], FailJson msg) ∧
    Py.contains (stripped t) msg = true ∧
    ∀ name, name ∈ Junos.VALID_SUBSETS → Py.contains name msg = true.
Proof.
  apply (junos_unknown_subset_rejected elements _ _ _ (λ s, reflexivity _)).
  apply Exists_cons_tl, Exists_cons_hd. split; by_compute.
Defined.

Lemma iosxr_run_returns_facts_witness :
  ∃ log af,
    Iosxr.main elements Samples.echo Samples.iosxr_scrape_ok
      Samples.from_json_refuses [] ["hardware"] = (log, ExitFacts af []).
Proof.
  apply (iosxr_run_returns_facts elements Samples.echo Samples.iosxr_scrape_ok
           Samples.from_json_refuses [] ["hardware"] {["hardware"; "default"]}).
  - intros s. reflexivity.
  - by_compute.
  - intros commands. by exists commands.
  - intros name results. by eexists.
Defined.

Lemma junos_run_returns_facts_witness :
  ∃ log af,
    Junos.main elements Samples.junos_scrape_ok [] ["!config"; "!routes"] =
      (log, ExitFacts af []).
Proof.
  apply (junos_run_returns_facts elements Samples.junos_scrape_ok []
           ["!config"; "!routes"]
           (Junos.VALID_SUBSETS ∖ {["config"; "routes"]} ∪ {["default"]})).
  - intros s. reflexivity.
  - by_compute.
  - intros name. by eexists.
Defined.

End MainMore.

(** ** The parsers of [iosxr_facts] *)

Module IosxrParsersFacts.
Import Facts IosxrParsers.

(** *** Lines and words *)

(** [sep.join(s.split(sep))] gives [s] back. *)
Lemma join_split_by (c : ascii) (s : string) :
  Py.join (String c EmptyString) (Py.split_by (λ a, Ascii.eqb a c) s) = s.
Proof.
  unfold Py.join. induction s as [|a s IH]; [done|]. simpl.
  destruct (SysdescrBranches.split_by_nonempty (λ a, Ascii.eqb a c) s)
    as (f & rest & Hs).
  rewrite Hs in IH |- *.
  destruct (Ascii.eqb a c) eqn:Hac.
  - apply Ascii.eqb_eq in Hac as ->. simpl in *. by rewrite IH.
  - destruct rest; simpl in *; by rewrite <- IH.
Qed.

Lemma join_lines data : Py.join (String newline EmptyString) (lines data) = data.
Proof. apply join_split_by. Qed.

(** Leading whitespace makes no word; any other first character does. *)
Lemma split_cons_space c s :
  Py.isspace c = true → Py.split (String c s) = Py.split s.
Proof.
  intros Hc. unfold Py.split. simpl. rewrite Hc.
  by rewrite filter_cons_False by (by intros []).
Qed.

Lemma split_cons_word c s :
  Py.isspace c = false → Py.split (String c s) ≠ [].
Proof.
  intros Hc. unfold Py.split. simpl. rewrite Hc.
  destruct (Py.split_by Py.isspace s); by rewrite filter_cons_True.
Qed.

(** Two strings without a word make a string without a word. *)
Lemma split_app_blank a b :
  Py.split a = [] → Py.split b = [] → Py.split (a +:+ b) = [].
Proof.
  intros Ha Hb. induction a as [|c a IH]; [done|].
  change (String c a +:+ b) with (String c (a +:+ b)).
  destruct (Py.isspace c) eqn:Hc.
  - rewrite split_cons_space in Ha |- * by done. by apply IH.
  - by apply (split_cons_word c a) in Hc.
Qed.

(** *** [populate_serial] *)

(** X13. The serial list holds the lines of the response in their order,
    the rule of dashes left out; a response without that rule is given
    back line by line, so joining the list restores it. *)
Theorem populate_serial_lines data :
  populate_serial data `sublist_of` lines data ∧
  (∀ line, line ∈ populate_serial data ↔ line ∈ lines data ∧ line ≠ dashes) ∧
  (dashes ∉ lines data →
   Py.join (String newline EmptyString) (populate_serial data) = data).
Proof.
  unfold populate_serial. split_and!.
  - apply sublist_filter.
  - intros line. rewrite list_elem_of_filter. tauto.
  - intros Hno. rewrite <- (join_lines data) at 2. f_equal.
    induction (lines data) as [|l ls IH]; [done|].
    rewrite filter_cons_True by set_solver. f_equal. apply IH. set_solver.
Qed.

Lemma populate_serial_lines_witness :
  Py.join (String newline EmptyString)
    (populate_serial "RACK 0
SN: FOX1234ABCD") = "RACK 0
SN: FOX1234ABCD".
Proof.
  apply (proj2 (proj2 (populate_serial_lines _))). by_compute.
Defined.

(** *** [Multicast.populate] *)

(** X14. [Multicast.populate] raises [KeyError] exactly when [results]
    lacks one of the commands of the class, and no other exception. When
    it returns, it has written exactly the keys the catalog lists for the
    class, and the connection lines, joined, are the response as the
    device gave it. *)
Theorem multicast_populate_keys results :
  (multicast_populate results = inl KeyError ↔
   ∃ c, c ∈ commands Iosxr.Multicast ∧ results !! c = None) ∧
  (∀ e, multicast_populate results = inl e → e = KeyError) ∧
  (∀ facts, multicast_populate results = inr facts →
     dom facts = list_to_set (fact_keys Iosxr.Multicast) ∧
     ∃ data l,
       results !! "show mfib connections" = Some data ∧
       facts !! "mfib_connections" = Some (VList (VStr <$> l)) ∧
       Py.join (String newline EmptyString) l = data).
Proof.
  unfold multicast_populate, response.
  destruct (results !! "show mfib connections") as [d0|] eqn:H0; simpl.
  2:{ split_and!; [|by intros e [= <-]|done].
      split; [|done]. intros _. exists "show mfib connections".
      split; [set_solver|done]. }
  destruct (results !! "show mfib counter") as [d1|] eqn:H1; simpl.
  2:{ split_and!; [|by intros e [= <-]|done].
      split; [|done]. intros _. exists "show mfib counter".
      split; [set_solver|done]. }
  destruct (results !! "show mrib route outgoing-interface") as [d2|] eqn:H2; simpl.
  2:{ split_and!; [|by intros e [= <-]|done].
      split; [|done]. intros _. exists "show mrib route outgoing-interface".
      split; [set_solver|done]. }
  split_and!; [|done|].
  - split; [done|]. intros (c & Hc & Hnone). simpl in Hc.
    rewrite !elem_of_cons, elem_of_nil in Hc.
    destruct Hc as [->|[->|[->|[]]]]; congruence.
  - intros facts [= <-]. split.
    + rewrite !dom_insert_L, dom_empty_L. by_compute.
    + exists d0, (populate_mfib_con d0). split_and!; [done..|].
      apply join_lines.
Qed.

Lemma multicast_populate_keys_witness :
  multicast_populate {["show mfib connections" := "a"]} = inl KeyError.
Proof.
  apply (proj1 (multicast_populate_keys _)).
  exists "show mfib counter". split; by_compute.
Defined.

(** With the responses to its three commands in [results], it returns. *)
Lemma multicast_populate_zip r0 r1 r2 :
  ∃ facts,
    multicast_populate
      (dict_zip (commands Iosxr.Multicast) [r0; r1; r2]) = inr facts.
Proof.
  unfold multicast_populate, response.
  rewrite !(MainMore.dict_zip_lookup _ _ 0 "show mfib connections"),
    !(MainMore.dict_zip_lookup _ _ 1 "show mfib counter"),
    !(MainMore.dict_zip_lookup _ _ 2 "show mrib route outgoing-interface");
    try done; try by_compute.
  simpl. eauto.
Qed.

(** *** [parse_l2vpn] *)

Lemma word_lt (var : list string) i :
  (i < length var)%nat → ∃ w, word var i = inr w.
Proof.
  intros [w Hw]%lookup_lt_is_Some_2. exists w. unfold word. by rewrite Hw.
Qed.

Lemma l2vpn_loop_returns rows : ∀ combined parsed,
  ∃ parsed', l2vpn_loop rows combined parsed = inr parsed'.
Proof.
  induction rows as [|line rest IH]; intros combined parsed; simpl; [eauto|].
  destruct (String.prefix "--" line); [apply IH|].
  set (combined' := if (length (Py.split line) <=? 6)%nat
                    then combined +:+ line else combined).
  destruct (length (Py.split combined') =? 8)%nat eqn:Hc.
  - rewrite Hc. apply Nat.eqb_eq in Hc.
    destruct (word_lt (Py.split combined') 0) as [w0 ->]; [lia|].
    destruct (word_lt (Py.split combined') 1) as [w1 ->]; [lia|].
    destruct (word_lt (Py.split combined') 2) as [w2 ->]; [lia|].
    destruct (word_lt (Py.split combined') 3) as [w3 ->]; [lia|].
    destruct (word_lt (Py.split combined') 5) as [w5 ->]; [lia|].
    simpl. apply IH.
  - destruct (length (Py.split line) =? 8)%nat eqn:Hl; [|apply IH].
    apply Nat.eqb_eq in Hl.
    destruct (word_lt (Py.split line) 0) as [w0 ->]; [lia|].
    destruct (word_lt (Py.split line) 1) as [w1 ->]; [lia|].
    destruct (word_lt (Py.split line) 2) as [w2 ->]; [lia|].
    destruct (word_lt (Py.split line) 3) as [w3 ->]; [lia|].
    destruct (word_lt (Py.split line) 5) as [w5 ->]; [lia|].
    simpl. apply IH.
Qed.

(** X15. [parse_l2vpn] never raises: the five columns it reads are read
    from a line it has just counted eight words in. A response of six
    lines or fewer, the table heading alone, gives the empty
    dictionary. *)
Theorem parse_l2vpn_returns data :
  (∃ parsed, parse_l2vpn data = inr parsed) ∧
  ((length (lines data) ≤ 6)%nat → parse_l2vpn data = inr ∅).
Proof.
  split; [apply l2vpn_loop_returns|].
  intros Hlen. unfold parse_l2vpn. by rewrite drop_ge.
Qed.

Lemma parse_l2vpn_returns_witness :
  parse_l2vpn "% No such configuration item" = inr ∅.
Proof.
  apply (proj2 (parse_l2vpn_returns _)). vm_compute. lia.
Defined.

(** Inserting the rows one after the other: a later row with the same
    name replaces an earlier one. *)
Lemma foldl_insert_rows (rows : list (string * xconnect)) :
  ∀ parsed : gmap string xconnect,
  foldl (λ m e, <[e.1 := e.2]> m) parsed rows =
    list_to_map (reverse rows) ∪ parsed.
Proof.
  induction rows as [|e rows IH]; intros parsed; simpl.
  { by rewrite (left_id_L ∅ (∪)). }
  rewrite IH, reverse_cons, list_to_map_app. simpl.
  rewrite <- (assoc_L (∪)). f_equal.
  by rewrite insert_empty, <- insert_union_singleton_l.
Qed.

Lemma l2vpn_loop_plain rows : ∀ combined parsed,
  Py.split combined = [] → Forall plain_row rows →
  l2vpn_loop rows combined parsed =
    inr (foldl (λ m e, <[e.1 := e.2]> m) parsed (omap xconnect_row rows)).
Proof.
  induction rows as [|line rest IH]; intros combined parsed Hblank Hrows;
    [done|].
  apply Forall_cons in Hrows as [Hrow Hrows]. simpl.
  unfold xconnect_row at 1.
  destruct (String.prefix "--" line) eqn:Hrule; [by apply IH|].
  destruct Hrow as [?|[Hnone|Height]]; [congruence| |].
  - rewrite Hnone. simpl.
    rewrite (split_app_blank _ _ Hblank Hnone). simpl. rewrite Hnone. simpl.
    apply IH; [|done]. by apply split_app_blank.
  - rewrite Height. simpl. rewrite Hblank. simpl. rewrite Height. simpl.
    destruct (Py.split line) as [|w0 [|w1 [|w2 [|w3 [|w4 [|w5 [|w6 [|w7 [|]]]]]]]]];
      try discriminate.
    simpl. by apply IH.
Qed.

(** X16. On a table whose rows after the six heading lines are rules,
    blank rows or rows of eight columns, [parse_l2vpn] maps the second
    column of every row of eight to its third, fourth and sixth column;
    when a name comes twice, the later row stays. *)
Theorem parse_l2vpn_table data :
  Forall plain_row (drop 6 (lines data)) →
  parse_l2vpn data =
    inr (list_to_map (reverse (omap xconnect_row (drop 6 (lines data))))).
Proof.
  intros Hrows. unfold parse_l2vpn.
  rewrite l2vpn_loop_plain by done.
  by rewrite foldl_insert_rows, (right_id_L ∅ (∪)).
Qed.

Lemma parse_l2vpn_table_witness :
  ∃ parsed,
    parse_l2vpn sample_xconnect = inr parsed ∧
    parsed !! "xc2" = Some (Xconnect "DN" "Gi0/0/0/2" "10.0.0.2").
Proof.
  eexists. split.
  - apply parse_l2vpn_table. by_compute.
  - by_compute.
Defined.

(** *** [parse_interfaces] *)

(** Once the current key has its block, the loop goes through. *)
Lemma interfaces_loop_returns rows : ∀ key parsed,
  is_Some (parsed !! key) →
  ∃ parsed', interfaces_loop rows key parsed = inr parsed'.
Proof.
  induction rows as [|line rest IH]; intros key parsed Hkey; simpl; [eauto|].
  destruct line as [|c line]; [by apply IH|].
  destruct (decide (c = " "%char)) as [->|Hc].
  - destruct Hkey as [block ->]. apply IH. rewrite lookup_insert_eq. eauto.
  - assert (∃ parsed',
      (let match_ := leading_word (String c line) in
       if decide (match_ = EmptyString) then interfaces_loop rest key parsed
       else interfaces_loop rest match_ (<[match_ := String c line]> parsed)) =
      inr parsed') as Hgoal.
    { simpl. case_decide; [by apply IH|]. apply IH.
      rewrite lookup_insert_eq. eauto. }
    destruct c as [[] [] [] [] [] [] [] []]; try exact Hgoal.
    done.
Qed.

(** Until a line opens a block, the loop fails at the first line that
    continues one. *)
Lemma interfaces_loop_unopened rows : ∀ parsed,
  parsed !! EmptyString = None →
  match head (filter (λ line, continues line || opens line = true) rows) with
  | Some line =>
      if continues line then interfaces_loop rows EmptyString parsed = inl KeyError
      else ∃ parsed', interfaces_loop rows EmptyString parsed = inr parsed'
  | None => interfaces_loop rows EmptyString parsed = inr parsed
  end.
Proof.
  induction rows as [|line rest IH]; intros parsed Hnone; [done|].
  destruct (continues line) eqn:Hcont.
  - rewrite filter_cons_True by (by rewrite Hcont). simpl. rewrite Hcont.
    destruct line as [|c line]; [done|].
    destruct c as [[] [] [] [] [] [] [] []]; try done.
    simpl. by rewrite Hnone.
  - destruct (opens line) eqn:Hopen.
    + rewrite filter_cons_True by (by rewrite Hcont, Hopen). simpl.
      rewrite Hcont. destruct line as [|c line]; [done|].
      simpl in Hopen. apply negb_true_iff in Hopen.
      assert (leading_word (String c line) ≠ EmptyString) as Hword
        by (simpl; by rewrite Hopen).
      assert (∃ parsed',
        (let match_ := leading_word (String c line) in
         if decide (match_ = EmptyString)
         then interfaces_loop rest EmptyString parsed
         else interfaces_loop rest match_ (<[match_ := String c line]> parsed)) =
        inr parsed') as Hgoal.
      { cbv zeta. rewrite decide_False by done.
        apply interfaces_loop_returns. rewrite lookup_insert_eq. eauto. }
      destruct c as [[] [] [] [] [] [] [] []]; try exact Hgoal.
      done.
    + rewrite filter_cons_False by (by rewrite Hcont, Hopen).
      assert (interfaces_loop (line :: rest) EmptyString parsed =
              interfaces_loop rest EmptyString parsed) as ->; [|by apply IH].
      destruct line as [|c line]; [done|].
      simpl in Hopen. apply negb_false_iff in Hopen.
      assert ((let match_ := leading_word (String c line) in
         if decide (match_ = EmptyString)
         then interfaces_loop rest EmptyString parsed
         else interfaces_loop rest match_ (<[match_ := String c line]> parsed)) =
        interfaces_loop rest EmptyString parsed) as Hgoal.
      { simpl. rewrite Hopen. by rewrite decide_True. }
      destruct c as [[] [] [] [] [] [] [] []]; try exact Hgoal.
      done.
Qed.

(** X17. [parse_interfaces] raises [KeyError] exactly when, among the
    lines that continue or open a block, the first one continues: a line
    beginning with a space before any line beginning with a word.
    Otherwise it returns. *)
Theorem parse_interfaces_KeyError data :
  (parse_interfaces data = inl KeyError ↔
   ∃ line, first_block_line data = Some line ∧ continues line = true) ∧
  (∀ e, parse_interfaces data = inl e → e = KeyError).
Proof.
  unfold parse_interfaces, first_block_line.
  pose proof (interfaces_loop_unopened (lines data) ∅ (lookup_empty _)) as H.
  destruct (head _) as [line|].
  - destruct (continues line) eqn:Hcont.
    + rewrite H. split; [|by intros e [= <-]]. split; [eauto|done].
    + destruct H as [parsed' ->]. split; [|done].
      split; [done|]. intros (l & [= <-] & ?). congruence.
  - rewrite H. split; [|done]. split; [done|]. by intros (l & ? & _).
Qed.

Lemma parse_interfaces_KeyError_witness :
  parse_interfaces "  MTU 1514 bytes
Loopback0 is up" = inl KeyError.
Proof.
  apply (proj1 (parse_interfaces_KeyError _)).
  exists "  MTU 1514 bytes". split; vm_compute; reflexivity.
Defined.

(** What is appended to a block comes after a line end, so the first
    word of the block stays. *)
Lemma leading_word_app block c rest :
  Py.isspace c = true →
  leading_word (block +:+ String c rest) = leading_word block.
Proof.
  intros Hc. induction block as [|b block IH]; simpl; [by rewrite Hc|].
  destruct (Py.isspace b); [done|]. by rewrite IH.
Qed.

Lemma interfaces_loop_blocks rows : ∀ key parsed parsed',
  map_Forall (λ k block, k ≠ EmptyString ∧ leading_word block = k) parsed →
  interfaces_loop rows key parsed = inr parsed' →
  map_Forall (λ k block, k ≠ EmptyString ∧ leading_word block = k) parsed'.
Proof.
  induction rows as [|line rest IH]; intros key parsed parsed' Hinv; simpl;
    [by intros [= <-]|].
  destruct line as [|c line]; [by apply IH|].
  destruct (decide (c = " "%char)) as [->|Hc].
  - destruct (parsed !! key) as [block|] eqn:Hkey; [|done].
    apply IH. apply map_Forall_insert_2; [|done].
    destruct (Hinv _ _ Hkey) as [Hne Hword]. split; [done|].
    by rewrite leading_word_app.
  - assert ((let match_ := leading_word (String c line) in
       if decide (match_ = EmptyString) then interfaces_loop rest key parsed
       else interfaces_loop rest match_ (<[match_ := String c line]> parsed)) =
      inr parsed' →
      map_Forall (λ k block, k ≠ EmptyString ∧ leading_word block = k) parsed')
      as Hgoal.
    { cbv zeta. case_decide as Hword; [by apply IH|].
      apply IH. by apply map_Forall_insert_2. }
    destruct c as [[] [] [] [] [] [] [] []]; try exact Hgoal.
    done.
Qed.

(** X18. In the dictionary [parse_interfaces] returns, every key is a
    word, not empty, and the block stored under it begins with that very
    word: an interface is filed under the first word of its own first
    line. *)
Theorem parse_interfaces_blocks data parsed key block :
  parse_interfaces data = inr parsed → parsed !! key = Some block →
  key ≠ EmptyString ∧ leading_word block = key ∧
  String.prefix key block = true.
Proof.
  intros Hparse Hkey.
  destruct (interfaces_loop_blocks _ _ _ _ (map_Forall_empty _) Hparse _ _ Hkey)
    as [Hne Hword].
  split_and!; [done..|]. rewrite <- Hword. clear.
  induction block as [|c block IH]; simpl; [done|].
  destruct (Py.isspace c); [done|]. simpl. by destruct (ascii_dec c c).
Qed.

(** A call that returned a dictionary with a key has a dictionary and a
    value. *)
Lemma returned_lookup_inv {A} (r : exn + gmap string A) key :
  match r with
  | inr m => match m !! key with Some _ => True | None => False end
  | inl _ => False
  end →
  ∃ m v, r = inr m ∧ m !! key = Some v.
Proof.
  destruct r as [e|m]; [done|]. destruct (m !! key) eqn:H; [eauto|done].
Qed.

Lemma parse_interfaces_blocks_witness :
  ∃ parsed block,
    parse_interfaces sample_interfaces = inr parsed ∧
    parsed !! "Loopback0" = Some block ∧
    leading_word block = "Loopback0".
Proof.
  destruct (returned_lookup_inv (parse_interfaces sample_interfaces) "Loopback0")
    as (parsed & block & H & Hblock); [vm_compute; exact I|].
  exists parsed, block. split_and!; [exact H|exact Hblock|].
  exact (proj1 (proj2 (parse_interfaces_blocks _ _ _ _ H Hblock))).
Defined.

(** *** [parse_route_sum] *)

Lemma strip_prefix_Some needle hay tail :
  strip_prefix needle hay = Some tail ↔ hay = needle +:+ tail.
Proof.
  revert hay. induction needle as [|a needle IH]; intros hay; simpl.
  { split; [by intros [= ->]|by intros ->]. }
  destruct hay as [|b hay]; [done|].
  destruct (Ascii.eqb a b) eqn:Hab.
  - apply Ascii.eqb_eq in Hab as ->. rewrite IH. split; [by intros ->|by intros [= ->]].
  - apply Ascii.eqb_neq in Hab. split; [done|]. by intros [= ? _].
Qed.

Lemma strip_prefix_None needle hay :
  strip_prefix needle hay = None ↔ String.prefix needle hay = false.
Proof.
  revert hay. induction needle as [|a needle IH]; intros hay; simpl.
  { by destruct hay. }
  destruct hay as [|b hay]; [done|]. simpl.
  destruct (Ascii.eqb a b) eqn:Hab.
  - apply Ascii.eqb_eq in Hab as ->. rewrite IH. by destruct (ascii_dec b b).
  - apply Ascii.eqb_neq in Hab. by destruct (ascii_dec a b).
Qed.

(** The cut fails exactly when the word is nowhere. *)
Lemma after_last_None needle hay :
  after_last needle hay = None ↔ Py.contains needle hay = false.
Proof.
  induction hay as [|c hay IH]; rewrite PyFacts.contains_unfold;
    cbn [after_last].
  - by rewrite strip_prefix_None, orb_false_r.
  - rewrite orb_false_iff, <- IH, <- strip_prefix_None.
    destruct (after_last needle hay); [|tauto].
    split; [done|]. by intros [_ ?].
Qed.

(** The cut is made right after an occurrence of the word. *)
Lemma after_last_cut needle hay tail :
  after_last needle hay = Some tail → ∃ before, hay = before +:+ needle +:+ tail.
Proof.
  revert tail. induction hay as [|c hay IH]; intros tail; simpl.
  - intros ->%strip_prefix_Some. by exists EmptyString.
  - destruct (after_last needle hay) as [t|].
    + intros [= <-]. destruct (IH t eq_refl) as [before ->].
      by exists (String c before).
    + intros ->%strip_prefix_Some. by exists EmptyString.
Qed.

(** A word inside the end of a string is inside the string. *)
Lemma contains_tail needle c hay :
  Py.contains needle hay = true → Py.contains needle (String c hay) = true.
Proof. intros H. rewrite PyFacts.contains_unfold, H. apply orb_true_r. Qed.

Lemma contains_after needle before tail :
  Py.contains needle tail = true → Py.contains needle (before +:+ tail) = true.
Proof. apply PyFacts.contains_app_l. Qed.

(** No occurrence of the word follows the cut. *)
Lemma after_last_last needle hay tail :
  needle ≠ EmptyString →
  after_last needle hay = Some tail → Py.contains needle tail = false.
Proof.
  intros Hne. revert tail. induction hay as [|c hay IH]; intros tail; simpl.
  - destruct needle; [done|]. done.
  - destruct (after_last needle hay) as [t|] eqn:Hlater.
    + intros [= <-]. by apply IH.
    + apply after_last_None in Hlater.
      destruct needle as [|a needle]; [done|]. simpl.
      destruct (Ascii.eqb a c); [|done].
      intros Hrest%strip_prefix_Some. subst hay.
      destruct (Py.contains (String a needle) tail) eqn:Htail; [|done].
      by rewrite (contains_after _ needle tail Htail) in Hlater.
Qed.

Lemma route_sum_loop_errors rows : ∀ routesum,
  (∀ e, route_sum_loop rows routesum = inl e → e = IndexError) ∧
  (route_sum_loop rows routesum = inl IndexError ↔
   Exists (λ line, route_row line = true ∧ (length (Py.split line) < 5)%nat) rows).
Proof.
  induction rows as [|line rest IH]; intros routesum; simpl.
  { split; [done|]. split; [done|]. by intros ?%Exists_nil. }
  rewrite Exists_cons.
  destruct (route_row line) eqn:Hrow.
  2:{ destruct (IH routesum) as [He Hiff]. split; [done|].
      rewrite Hiff. split; [tauto|]. by intros [[? _]|?]. }
  destruct (decide (length (Py.split line) < 5)%nat) as [Hshort|Hlong].
  - assert (∃ i, (i < 5)%nat ∧ Py.split line !! i = None ∧
                 ∀ j, (j < i)%nat → is_Some (Py.split line !! j))
      as (i & Hi & Hnone & Hsome).
    { exists (length (Py.split line)). split_and!; [done| |].
      - by apply lookup_ge_None.
      - intros j Hj. by apply lookup_lt_is_Some_2. }
    assert (
      (word (Py.split line) 0 ≫= λ source,
       word (Py.split line) 1 ≫= λ routes,
       word (Py.split line) 2 ≫= λ backup,
       word (Py.split line) 3 ≫= λ deleted,
       word (Py.split line) 4 ≫= λ memory,
       route_sum_loop rest
         (<[source := RouteSource routes backup deleted memory]> routesum)) =
      inl IndexError) as ->.
    { unfold word.
      destruct (Py.split line) as [|w0 [|w1 [|w2 [|w3 [|w4 ?]]]]]; simpl in *;
        try done; lia. }
    split; [by intros e [= <-]|]. split; [|done]. intros _. left. done.
  - destruct (word_lt (Py.split line) 0) as [w0 ->]; [lia|].
    destruct (word_lt (Py.split line) 1) as [w1 ->]; [lia|].
    destruct (word_lt (Py.split line) 2) as [w2 ->]; [lia|].
    destruct (word_lt (Py.split line) 3) as [w3 ->]; [lia|].
    destruct (word_lt (Py.split line) 4) as [w4 ->]; [lia|].
    simpl.
    destruct (IH (<[w0 := RouteSource w1 w2 w3 w4]> routesum)) as [He Hiff].
    split; [done|]. rewrite Hiff. split; [tauto|]. by intros [[_ ?]|?].
Qed.

(** X19. [parse_route_sum] fails with [AttributeError] exactly when the
    response has no [MET]: the search finds nothing and the group of
    nothing is asked for. Otherwise the table is what follows the last
    [MET], and the parser fails with [IndexError] exactly when a row of
    it, neither empty nor the heading, has fewer than five words. It
    raises nothing else. *)
Theorem parse_route_sum_errors data :
  (parse_route_sum data = inl AttributeError ↔ Py.contains "MET" data = false) ∧
  (∀ table, after_last "MET" data = Some table →
     (∃ before, data = before +:+ "MET" +:+ table) ∧
     Py.contains "MET" table = false ∧
     (parse_route_sum data = inl IndexError ↔
      Exists (λ line, route_row line = true ∧ (length (Py.split line) < 5)%nat)
        (lines table))) ∧
  parse_route_sum data ≠ inl KeyError.
Proof.
  unfold parse_route_sum. split_and!.
  - rewrite <- after_last_None.
    destruct (after_last "MET" data) as [table|]; [|done].
    split; [|done]. intros H.
    by apply (proj1 (route_sum_loop_errors _ _)) in H.
  - intros table Htable. rewrite Htable. split_and!.
    + by apply after_last_cut.
    + by apply (after_last_last "MET" data).
    + apply route_sum_loop_errors.
  - destruct (after_last "MET" data) as [table|]; [|done].
    intros H. by apply (proj1 (route_sum_loop_errors _ _)) in H.
Qed.

Lemma parse_route_sum_errors_witness :
  ∃ table,
    after_last "MET" sample_route_summary = Some table ∧
    Py.contains "MET" table = false.
Proof.
  assert (∃ table, after_last "MET" sample_route_summary = Some table)
    as [table H] by (vm_compute; eauto).
  exists table. split; [exact H|].
  exact (proj1 (proj2 (proj1 (proj2 (parse_route_sum_errors sample_route_summary))
                         table H))).
Defined.

End IosxrParsersFacts.

(** ** The LLDP neighbours of [iosxr_facts] *)

Module IosxrNeighborsFacts.
Import IosxrParsers IosxrNeighbors.

Lemma neighbor_count_insert_new (facts : gmap (option string) (list neighbor)) k l :
  facts !! k = None →
  neighbor_count (<[k := l]> facts) = length l + neighbor_count facts.
Proof.
  intros Hk. unfold neighbor_count.
  rewrite map_fold_insert_L; [done| |done]. intros. lia.
Qed.

Lemma neighbor_count_insert_old (facts : gmap (option string) (list neighbor)) k l0 l :
  facts !! k = Some l0 →
  neighbor_count (<[k := l]> facts) + length l0 = length l + neighbor_count facts.
Proof.
  intros Hk.
  rewrite <- (insert_delete_id facts k l0 Hk) at 2.
  rewrite <- (insert_delete_eq facts k l).
  rewrite !neighbor_count_insert_new by apply lookup_delete_eq. lia.
Qed.

Lemma neighbors_loop_count entries' : ∀ facts,
  map_Forall (λ _ l, l ≠ []) facts →
  ∃ facts',
    neighbors_loop entries' facts = inr facts' ∧
    neighbor_count facts' =
      neighbor_count facts + length (filter (λ e, e ≠ EmptyString) entries') ∧
    map_Forall (λ _ l, l ≠ []) facts'.
Proof.
  induction entries' as [|entry rest IH]; intros facts Hinv; simpl.
  { exists facts. split_and!; [done|lia|done]. }
  case_decide as Hentry.
  { rewrite filter_cons_False by (by intros []). by apply IH. }
  rewrite filter_cons_True by done. simpl.
  set (intf := parse_lldp_intf entry).
  set (fact := Neighbor (parse_lldp_host entry) (parse_lldp_port entry)).
  destruct (facts !! intf) as [l0|] eqn:Hintf.
  - rewrite Hintf.
    destruct (IH (<[intf := l0 ++ [fact]]> facts)) as (facts' & -> & Hcount & Hne).
    { apply map_Forall_insert_2; [|done]. by destruct l0. }
    exists facts'. split_and!; [done| |done].
    rewrite Hcount.
    pose proof (neighbor_count_insert_old facts intf l0 (l0 ++ [fact]) Hintf) as H.
    rewrite length_app in H. simpl in H. lia.
  - rewrite lookup_insert_eq. rewrite insert_insert_eq.
    destruct (IH (<[intf := [] ++ [fact]]> facts)) as (facts' & -> & Hcount & Hne).
    { by apply map_Forall_insert_2. }
    exists facts'. split_and!; [done| |done].
    rewrite Hcount, neighbor_count_insert_new by done. simpl. lia.
Qed.

(** X25. [parse_neighbors] never raises, whatever the response. What
    stands before the first rule of dashes is not read; every entry
    after it that is not empty gives exactly one neighbour, so that the
    lists of the result hold as many neighbours as there are such
    entries, and none of the lists is empty. *)
Theorem parse_neighbors_count neighbors :
  ∃ facts,
    parse_neighbors neighbors = inr facts ∧
    neighbor_count facts = length (entries neighbors) ∧
    map_Forall (λ _ list, list ≠ []) facts.
Proof.
  unfold parse_neighbors, entries.
  destruct (neighbors_loop_count (drop 1 (split_on separator 0 neighbors)) ∅)
    as (facts & Hloop & Hcount & Hne); [apply map_Forall_empty|].
  exists facts. split_and!; [done| |done].
  rewrite Hcount. unfold neighbor_count. by rewrite map_fold_empty.
Qed.

(** On the sample response: two neighbours on the one interface. *)
Example parse_neighbors_sample :
  (λ r, match r with
        | inr facts => facts !! Some "GigabitEthernet0/0/0/0"
        | inl _ => None
        end) (parse_neighbors sample_neighbors) =
  Some [Neighbor (Some "core2") (Some "Gi0/0/0/1");
        Neighbor (Some "core3") (Some "Gi0/0/0/2")].
Proof. vm_compute. reflexivity. Qed.

End IosxrNeighborsFacts.
